(** * Imagery-QC: the COG batch converter and the corrupt-JPEG scanner

    A shallow embedding of [Create_COG.py] and [Check_Corrupt_Jpg.py].

    Python strings are [string]; the instance attributes of
    [CloudOptimizedGeotiff] are a record; the file system the scripts act on
    is a finite map from path strings to file contents together with a
    finite set of directories; exceptions are values threaded through a
    state-and-exception monad.  GDAL is a black box: its operations are
    variables of the sections below, and every call is recorded in a trace
    of events.

    Paths follow [posixpath]: the separator is the slash, and a relative
    path is resolved by joining it to the working directory.  The file
    system holds canonical paths and a resolved path is looked up as it
    stands, without normalisation: a property that depends on a path being
    absent is stated for names that resolve to a canonical path. *)

From Stdlib Require Import Ascii String DecimalString.
From stdpp Require Import gmap strings list fin_maps.

Open Scope string_scope.
Open Scope list_scope.

(** ** Python string operations *)

Module Py.

(** [sub in s] *)
Fixpoint contains (sub s : string) : bool :=
  if String.prefix sub s then true
  else match s with
       | EmptyString => false
       | String _ s' => contains sub s'
       end.

(** [s.startswith(sub)] and [s.endswith(c)] for a one-character [c] *)
Definition startswith (sub s : string) : bool := String.prefix sub s.

Fixpoint last_char (s : string) : option ascii :=
  match s with
  | EmptyString => None
  | String a s' => match last_char s' with
                   | Some b => Some b
                   | None => Some a
                   end
  end.

Definition endswith_char (c : ascii) (s : string) : bool :=
  bool_decide (last_char s = Some c).

(** [s.rfind(c)] for a one-character [c]; [None] stands for Python's -1 *)
Fixpoint rfind (c : ascii) (s : string) : option nat :=
  match s with
  | EmptyString => None
  | String a s' => match rfind c s' with
                   | Some i => Some (S i)
                   | None => if decide (a = c) then Some 0 else None
                   end
  end.

(** the slices [s[i:]] and [s[:i]] *)
Fixpoint slice_from (i : nat) (s : string) : string :=
  match i, s with
  | 0, _ => s
  | S i', String _ s' => slice_from i' s'
  | S _, EmptyString => EmptyString
  end.

Fixpoint slice_to (i : nat) (s : string) : string :=
  match i, s with
  | 0, _ => EmptyString
  | S i', String a s' => String a (slice_to i' s')
  | S _, EmptyString => EmptyString
  end.

(** [s.split(c)] for a one-character separator: never the empty list *)
Fixpoint split (c : ascii) (s : string) : list string :=
  match s with
  | EmptyString => [EmptyString]
  | String a s' =>
      if decide (a = c) then EmptyString :: split c s'
      else match split c s' with
           | t :: ts => String a t :: ts
           | [] => [String a EmptyString]
           end
  end.

(** [str(n)] for a non-negative integer *)
Definition str_of_N (n : N) : string := NilZero.string_of_uint (N.to_uint n).

(** [str(x)] where [x] is [None] or an integer *)
Definition str_of_optional (x : option N) : string :=
  match x with
  | None => "None"
  | Some n => str_of_N n
  end.

(** *** [os.path] (posixpath) *)

(** [os.path.basename(p)]: [i = p.rfind('/') + 1; return p[i:]] *)
Definition basename (p : string) : string :=
  match rfind "/" p with
  | Some i => slice_from (S i) p
  | None => p
  end.

(** the leading-dot scan of [genericpath._splitext]: is there a character
    other than the dot among the first [n] characters of [s]? *)
Fixpoint has_non_dot (n : nat) (s : string) : bool :=
  match n, s with
  | S n', String a s' => if decide (a = "."%char) then has_non_dot n' s' else true
  | _, _ => false
  end.

(** [os.path.splitext(p)]: the extension starts at the last dot after the
    last separator, unless only dots precede it in the last component *)
Definition splitext (p : string) : string * string :=
  let sepIndex := rfind "/" p in
  match rfind "." p with
  | Some dotIndex =>
      let filenameIndex := match sepIndex with Some s => S s | None => 0 end in
      if bool_decide (filenameIndex <= dotIndex)
         && has_non_dot (dotIndex - filenameIndex) (slice_from filenameIndex p)
      then (slice_to dotIndex p, slice_from dotIndex p)
      else (p, EmptyString)
  | None => (p, EmptyString)
  end.

(** [os.path.join(a, b)] *)
Definition join (a b : string) : string :=
  if startswith "/" b then b
  else if bool_decide (a = EmptyString) || endswith_char "/" a then a +:+ b
  else a +:+ "/" +:+ b.

(** [os.path.dirname(p)]: the head up to the last slash, with trailing
    slashes stripped unless the head consists of slashes only *)
Fixpoint rstrip_slash (s : string) : string :=
  match s with
  | EmptyString => EmptyString
  | String a s' =>
      match rstrip_slash s' with
      | EmptyString => if decide (a = "/"%char) then EmptyString else String a EmptyString
      | t => String a t
      end
  end.

Definition dirname (p : string) : string :=
  match rfind "/" p with
  | Some i =>
      let head := slice_to (S i) p in
      match rstrip_slash head with
      | EmptyString => head
      | t => t
      end
  | None => EmptyString
  end.

(** [os.path.normpath(path)]: empty and [.] components dropped, [..]
    resolved against the component before it, two leading slashes kept *)
Definition normpath_step (initial_slashes : nat) (new_comps : list string) (comp : string)
  : list string :=
  if bool_decide (comp = EmptyString) || bool_decide (comp = ".") then new_comps
  else if negb (bool_decide (comp = ".."))
          || (bool_decide (initial_slashes = 0) && bool_decide (new_comps = []))
          || (negb (bool_decide (new_comps = [])) && bool_decide (last new_comps = Some ".."))
       then new_comps ++ [comp]
       else removelast new_comps.

Definition normpath (path : string) : string :=
  if bool_decide (path = EmptyString) then "."
  else
    let initial_slashes :=
      if startswith "/" path
      then if startswith "//" path && negb (startswith "///" path) then 2 else 1
      else 0 in
    let comps := split "/" path in
    let new_comps := fold_left (normpath_step initial_slashes) comps [] in
    let path := String.concat "/" new_comps in
    let path := match initial_slashes with
                | 0 => path
                | 1 => "/" +:+ path
                | _ => "//" +:+ path
                end in
    if bool_decide (path = EmptyString) then "." else path.

(** [glob.has_magic(s)]: does [s] hold one of the characters a pattern
    gives a meaning to? *)
Definition has_magic (s : string) : bool :=
  contains "*" s || contains "?" s || contains "[" s.

End Py.

(** ** Exceptions and the state-and-exception monad *)

Inductive exn_class :=
  | KeyError | NameError | RuntimeError
  | FileNotFoundError | FileExistsError | NotADirectoryError | IsADirectoryError
  | PermissionError | OSError.

#[global] Instance exn_class_eq_dec : EqDecision exn_class.
Proof. solve_decision. Defined.

(** an exception: its class and [str(e)] *)
Record exn := Exn { exn_cls : exn_class; exn_str : string }.

Inductive result (A : Type) :=
  | Return (a : A)
  | Raise (e : exn).
Arguments Return {A} a.
Arguments Raise {A} e.

(** A computation over a state [S]; the state survives a raised exception. *)
Definition M (S A : Type) : Type := S -> S * result A.

Definition ret {S A} (a : A) : M S A := fun s => (s, Return a).

Definition raise {S A} (e : exn) : M S A := fun s => (s, Raise e).

Definition bind {S A B} (m : M S A) (k : A -> M S B) : M S B :=
  fun s => match m s with
           | (s', Return a) => k a s'
           | (s', Raise e) => (s', Raise e)
           end.

Notation "x <- m ;; k" := (bind m (fun x => k))
  (at level 20, m at level 99, k at level 200, format "x  <-  m  ;;  '/' k").
Notation "m ;; k" := (bind m (fun _ => k))
  (at level 100, k at level 200, right associativity, format "m  ;;  '/' k").

(** [try: m  except Exception as e: h e] *)
Definition try_except {S A} (m : M S A) (h : exn -> M S A) : M S A :=
  fun s => match m s with
           | (s', Return a) => (s', Return a)
           | (s', Raise e) => h e s'
           end.

(** [for x in l: body x]; a [continue] is the body returning early *)
Fixpoint for_ {S A} (l : list A) (body : A -> M S unit) : M S unit :=
  match l with
  | [] => ret tt
  | x :: l' => body x ;; for_ l' body
  end.

Definition gets {S A} (f : S -> A) : M S A := fun s => (s, Return (f s)).
Definition modify {S} (f : S -> S) : M S unit := fun s => (f s, Return tt).

(** What a Python [for] iterates over: the elements of a list, or the
    one-character strings of a [str]. *)
Inductive iterable :=
  | IterList (l : list string)
  | IterStr (s : string).

Fixpoint chars (s : string) : list string :=
  match s with
  | EmptyString => []
  | String a s' => String a EmptyString :: chars s'
  end.

Definition iter (it : iterable) : list string :=
  match it with
  | IterList l => l
  | IterStr s => chars s
  end.

Definition tab : string := String (ascii_of_nat 9) EmptyString.
Definition newline : string := String (ascii_of_nat 10) EmptyString.

(** [repr(s)]: the string between single quotes, or between double quotes
    when it holds a single quote and no double one; the backslash, the
    enclosing quote and the control characters escaped.  Characters
    outside ASCII are copied as they are. *)
Definition squote : ascii := "'"%char.
Definition dquote : ascii := ascii_of_nat 34.
Definition backslash : ascii := ascii_of_nat 92.

Definition hex_digit (n : nat) : ascii :=
  nth n (list_ascii_of_string "0123456789abcdef") "0"%char.

Definition repr_char (q c : ascii) : string :=
  if decide (c = q) then String backslash (String c EmptyString)
  else if decide (c = backslash) then String backslash (String backslash EmptyString)
  else if decide (c = ascii_of_nat 10) then String backslash "n"
  else if decide (c = ascii_of_nat 13) then String backslash "r"
  else if decide (c = ascii_of_nat 9) then String backslash "t"
  else if bool_decide (nat_of_ascii c < 32) || bool_decide (nat_of_ascii c = 127)
       then String backslash
              (String "x" (String (hex_digit (nat_of_ascii c / 16))
                             (String (hex_digit (nat_of_ascii c mod 16)) EmptyString)))
  else String c EmptyString.

Definition repr (s : string) : string :=
  let q := if Py.contains (String squote EmptyString) s
              && negb (Py.contains (String dquote EmptyString) s)
           then dquote else squote in
  String q (String.concat EmptyString (map (repr_char q) (list_ascii_of_string s)))
  +:+ String q EmptyString.

(** ** The file system *)

(** The errors with which the operating system refuses to enter, create,
    write or remove a path that is otherwise in order: missing permission,
    a lock, a full disk. *)
Inductive errno := EACCES | EPERM | ENOSPC.

#[global] Instance errno_eq_dec : EqDecision errno.
Proof. solve_decision. Defined.

(** Files by path with their contents, the directories, the working
    directory of the process, and the paths at which the operating system
    refuses the scripts' own calls ([os.chdir], [os.mkdir], [open] for
    appending, [os.remove]), each with the error it gives.  Paths are kept in canonical form, absolute and without
    empty, [.] or [..] components; the lookups below compare the path
    a name resolves to as a string, so they are exact for names that
    resolve to a canonical path. *)
Record FS := mkFS {
  files : gmap string string;
  dirs : gset string;
  cwd : string;
  refused : gmap string errno
}.

Definition resolve (fs : FS) (p : string) : string := Py.join (cwd fs) p.

Definition is_file (fs : FS) (p : string) : bool := bool_decide (is_Some (files fs !! resolve fs p)).
Definition is_dir (fs : FS) (p : string) : bool := bool_decide (resolve fs p ∈ dirs fs).

(** [os.path.exists(p)] *)
Definition path_exists (fs : FS) (p : string) : bool :=
  negb (bool_decide (p = EmptyString)) && (is_file fs p || is_dir fs p).

Definition enoent (p : string) : exn :=
  Exn FileNotFoundError ("[Errno 2] No such file or directory: " +:+ repr p).
Definition eexist (p : string) : exn :=
  Exn FileExistsError ("[Errno 17] File exists: " +:+ repr p).
Definition enotdir (p : string) : exn :=
  Exn NotADirectoryError ("[Errno 20] Not a directory: " +:+ repr p).
Definition eisdir (p : string) : exn :=
  Exn IsADirectoryError ("[Errno 21] Is a directory: " +:+ repr p).

(** the exception of a refusal: [PermissionError] for the two permission
    errors, plain [OSError] for a full disk *)
Definition erefused (err : errno) (p : string) : exn :=
  match err with
  | EACCES => Exn PermissionError ("[Errno 13] Permission denied: " +:+ repr p)
  | EPERM => Exn PermissionError ("[Errno 1] Operation not permitted: " +:+ repr p)
  | ENOSPC => Exn OSError ("[Errno 28] No space left on device: " +:+ repr p)
  end.

(** [os.chdir(p)] *)
Definition fs_chdir (p : string) (fs : FS) : exn + FS :=
  if bool_decide (p = EmptyString) then inl (enoent p)
  else if is_dir fs p
       then match refused fs !! resolve fs p with
            | Some err => inl (erefused err p)
            | None => inr (mkFS (files fs) (dirs fs) (resolve fs p) (refused fs))
            end
  else if is_file fs p then inl (enotdir p)
  else inl (enoent p).

(** [os.mkdir(p)] *)
Definition fs_mkdir (p : string) (fs : FS) : exn + FS :=
  if bool_decide (p = EmptyString) then inl (enoent p)
  else if is_dir fs p || is_file fs p then inl (eexist p)
  else if bool_decide (Py.dirname (resolve fs p) ∈ dirs fs)
       then match refused fs !! resolve fs p with
            | Some err => inl (erefused err p)
            | None => inr (mkFS (files fs) ({[ resolve fs p ]} ∪ dirs fs) (cwd fs) (refused fs))
            end
  else if bool_decide (is_Some (files fs !! Py.dirname (resolve fs p))) then inl (enotdir p)
  else inl (enoent p).

(** [with open(p, 'a+') as f: f.write(text)]: the file is created when
    absent; its directory must exist, and the operating system must not
    refuse the write *)
Definition fs_append (p text : string) (fs : FS) : exn + FS :=
  if bool_decide (p = EmptyString) then inl (enoent p)
  else if is_dir fs p then inl (eisdir p)
  else if bool_decide (Py.dirname (resolve fs p) ∈ dirs fs)
       then match refused fs !! resolve fs p with
            | Some err => inl (erefused err p)
            | None =>
                inr (mkFS (<[ resolve fs p := default EmptyString (files fs !! resolve fs p) +:+ text ]> (files fs))
                          (dirs fs) (cwd fs) (refused fs))
            end
  else if bool_decide (is_Some (files fs !! Py.dirname (resolve fs p))) then inl (enotdir p)
  else inl (enoent p).

(** [os.remove(p)] *)
Definition fs_remove (p : string) (fs : FS) : exn + FS :=
  if bool_decide (p = EmptyString) then inl (enoent p)
  else if is_file fs p
       then match refused fs !! resolve fs p with
            | Some err => inl (erefused err p)
            | None => inr (mkFS (delete (resolve fs p) (files fs)) (dirs fs) (cwd fs) (refused fs))
            end
  else if is_dir fs p then inl (eisdir p)
  else inl (enoent p).

(** the file written by a successful external call *)
Definition fs_write (p content : string) (fs : FS) : FS :=
  mkFS (<[ resolve fs p := content ]> (files fs)) (dirs fs) (cwd fs) (refused fs).

(** [os.listdir(d)]: the names directly under the directory [d] *)
Definition entry_name (d key : string) : option string :=
  let name := Py.basename key in
  if negb (bool_decide (name = EmptyString)) && bool_decide (Py.join d name = key)
  then Some name else None.

Definition listdir (fs : FS) (d : string) : list string :=
  omap (entry_name (resolve fs d)) (elements (dom (files fs) ∪ dirs fs)).

(** [fnmatch(name, pat)] for the patterns the scripts use: a star followed
    by a literal suffix, or a literal *)
Fixpoint endswith (suffix s : string) : bool :=
  if bool_decide (s = suffix) then true
  else match s with
       | EmptyString => false
       | String _ s' => endswith suffix s'
       end.

Definition fnmatch (name pat : string) : bool :=
  match pat with
  | String "*" suffix => endswith suffix name
  | _ => bool_decide (name = pat)
  end.

(** [glob(pathname)] for a pathname whose directory part is literal, that
    is, holds none of the pattern characters ([Py.has_magic]): the entries
    of that directory matching the last component, hidden names left out,
    each joined to the directory part as given.  Patterns in the directory
    part are not expanded. *)
Definition glob (pathname : string) (fs : FS) : list string :=
  let dirname := Py.dirname pathname in
  let pat := Py.basename pathname in
  if bool_decide (dirname = EmptyString) then
    filter (fun n => fnmatch n pat && negb (Py.startswith "." n)) (listdir fs EmptyString)
  else if is_dir fs dirname then
    map (Py.join dirname)
        (filter (fun n => fnmatch n pat && negb (Py.startswith "." n)) (listdir fs dirname))
  else [].

(** ** GDAL, the external raster library *)

Inductive TranslateOptions := TranslateOptions_of (argv : list string).

(** The outcome of [gdal.Translate(dst, src, options=...)]: the destination
    written, or a failure with its error text that may leave a partial
    destination behind.  Translate writes nothing but its destination. *)
Inductive TranslateOutcome :=
  | TranslateOk (content : string)
  | TranslateFail (msg : string) (partial : option string).

Record Dataset := mkDataset {
  ds_path : string;
  RasterXSize : N;
  RasterYSize : N;
  RasterCount : N
}.

Inductive OpenOutcome :=
  | Opened (xsize ysize count : N)
  | OpenFail (msg : string).

(** With [gdal.UseExceptions()] in force a failing operation raises
    [RuntimeError] with the error text. *)
Class Gdal := {
  ParseCommandLine : string -> list string;
  Translate : string -> string -> TranslateOptions -> FS -> TranslateOutcome;
  Open : string -> FS -> OpenOutcome;
  BuildOverviews : Dataset -> string -> list N -> FS -> gmap string string * option string
}.

Inductive event :=
  | EvTranslate (dst src : string) (options : TranslateOptions)
  | EvOpen (path : string)
  | EvBuildOverviews (path resampling : string) (levels : list N)
  | EvClose (path : string).

(** ** Create_COG.py *)

Module CreateCOG.

(** [PROJECTIONS()]: the dictionary of projections and EPSG codes *)
Definition PROJECTIONS : gmap string N :=
  list_to_map
    [("utm08", 3155%N); ("utm8", 3155%N); ("utm09", 3156%N); ("utm9", 3156%N);
     ("utm10", 3157%N); ("utm11", 2955%N); ("bcalb", 3005%N)].

(** the test [epsg_from_filename] makes on a token before it looks it up *)
Definition names_projection (token : string) : bool :=
  Py.contains "utm" token || Py.contains "bcalb" token.

(** The attributes of a [CloudOptimizedGeotiff] instance. *)
Record CloudOptimizedGeotiff := mkCOG {
  predictor : N;
  epsg : option N;
  compress_method : string;
  compress_level : N;
  overview_levels : list N;
  resampling : string;
  blockxsize : N;
  blockysize : N
}.

(** The attribute values [__init__] assigns.  Its two calls that set
    GDAL's global configuration are outside the model. *)
Definition init : CloudOptimizedGeotiff :=
  {| predictor := 3; epsg := None; compress_method := "DEFLATE"; compress_level := 6;
     overview_levels := [2%N; 4%N]; resampling := "cubic";
     blockxsize := 512; blockysize := 512 |}.

Definition set_epsg (v : option N) (o : CloudOptimizedGeotiff) : CloudOptimizedGeotiff :=
  mkCOG (predictor o) v (compress_method o) (compress_level o)
        (overview_levels o) (resampling o) (blockxsize o) (blockysize o).

Definition set_compress_method (v : string) (o : CloudOptimizedGeotiff) : CloudOptimizedGeotiff :=
  mkCOG (predictor o) (epsg o) v (compress_level o)
        (overview_levels o) (resampling o) (blockxsize o) (blockysize o).

(** The state of a run: the instance, the file system, and the calls made
    to the external library so far, oldest first. *)
Record Machine := mkMachine {
  self : CloudOptimizedGeotiff;
  fs : FS;
  trace : list event
}.

Definition with_self (f : CloudOptimizedGeotiff -> CloudOptimizedGeotiff) (m : Machine) : Machine :=
  mkMachine (f (self m)) (fs m) (trace m).
Definition with_fs (f : FS -> FS) (m : Machine) : Machine :=
  mkMachine (self m) (f (fs m)) (trace m).
Definition emit (ev : event) (m : Machine) : Machine :=
  mkMachine (self m) (fs m) (trace m ++ [ev])%list.

(** a file-system operation that may raise *)
Definition os_call (op : FS -> exn + FS) : M Machine unit :=
  fun m => match op (fs m) with
           | inr fs' => (with_fs (fun _ => fs') m, Return tt)
           | inl e => (m, Raise e)
           end.

Definition os_chdir (p : string) : M Machine unit := os_call (fs_chdir p).
Definition os_mkdir (p : string) : M Machine unit := os_call (fs_mkdir p).
Definition os_remove (p : string) : M Machine unit := os_call (fs_remove p).
Definition append_file (p text : string) : M Machine unit := os_call (fs_append p text).
Definition os_path_exists (p : string) : M Machine bool := gets (fun m => path_exists (fs m) p).

Section Methods.
Context {G : Gdal}.

(** [gdal.Translate(dst, src, options=opts)] *)
Definition gdal_Translate (dst src : string) (opts : TranslateOptions) : M Machine unit :=
  fun m =>
    let m1 := emit (EvTranslate dst src opts) m in
    match Translate dst src opts (fs m) with
    | TranslateOk content => (with_fs (fs_write dst content) m1, Return tt)
    | TranslateFail msg partial =>
        (match partial with
         | Some content => with_fs (fs_write dst content) m1
         | None => m1
         end, Raise (Exn RuntimeError msg))
    end.

(** [gdal.Open(f)] *)
Definition gdal_Open (f : string) : M Machine Dataset :=
  fun m =>
    let m1 := emit (EvOpen f) m in
    match Open f (fs m) with
    | Opened x y c => (m1, Return (mkDataset f x y c))
    | OpenFail msg => (m1, Raise (Exn RuntimeError msg))
    end.

(** [im.BuildOverviews(resampling, levels)] *)
Definition dataset_BuildOverviews (im : Dataset) (resampling : string) (levels : list N)
  : M Machine unit :=
  fun m =>
    let m1 := emit (EvBuildOverviews (ds_path im) resampling levels) m in
    let '(files', failure) := BuildOverviews im resampling levels (fs m) in
    let m2 := with_fs (fun fs0 => mkFS files' (dirs fs0) (cwd fs0) (refused fs0)) m1 in
    match failure with
    | None => (m2, Return tt)
    | Some msg => (m2, Raise (Exn RuntimeError msg))
    end.

(** [im = None]: the last reference is dropped and the dataset closed *)
Definition dataset_close (im : Dataset) : M Machine unit :=
  modify (emit (EvClose (ds_path im))).

Definition set_jpeg_quality (jpeg_quality : N) : M Machine unit :=
  modify (with_self (fun o =>
    set_compress_method (compress_method o +:+ " -co JPEG_QUALITY=" +:+ Py.str_of_N jpeg_quality) o)).

Definition create_translate_options : M Machine TranslateOptions :=
  (* amend gdal command string for jpeg *)
  cm <- gets (fun m => compress_method (self m)) ;;
  (if bool_decide (cm = "JPEG") then set_jpeg_quality 75 else ret tt) ;;
  (* Create gdal_translate command options *)
  o <- gets self ;;
  let trans_str :=
    "-of GTiff -a_srs EPSG:" +:+ Py.str_of_optional (epsg o) +:+ " "
    +:+ "-co PREDICTOR=" +:+ Py.str_of_N (predictor o) +:+ " -q "
    +:+ "-co TILED=YES -co NUM_THREADS=ALL_CPUS "
    +:+ "-co COMPRESS=" +:+ compress_method o +:+ " "
    +:+ "-co ZLEVEL=" +:+ Py.str_of_N (compress_level o) in
  ret (TranslateOptions_of (ParseCommandLine trans_str)).

(** the loop of [epsg_from_filename] over the tokens still to be seen *)
Fixpoint epsg_scan (tokens : list string) : M Machine unit :=
  match tokens with
  | [] => ret tt
  | string :: rest =>
      if names_projection string then
        match PROJECTIONS !! string with
        | Some code => modify (with_self (set_epsg (Some code)))   (* break *)
        | None => raise (Exn KeyError (repr string))
        end
      else epsg_scan rest
  end.

Definition tokens_of (filename : string) : list string :=
  Py.split "_" (Py.splitext (Py.basename filename)).1.

Definition epsg_from_filename (filename : string) : M Machine unit :=
  epsg_scan (tokens_of filename).

(** the derived output name: same basename, [.tif] extension *)
Definition out_name_of (file : string) : string :=
  (Py.splitext (Py.basename file)).1 +:+ ".tif".

Definition compress_and_tile_one (out_dir file : string) : M Machine unit :=
  let out_name := out_name_of file in
  ex <- os_path_exists out_name ;;
  if ex then ret tt   (* continue *)
  else
    epsg_from_filename file ;;
    translate_options <- create_translate_options ;;
    try_except (gdal_Translate out_name file translate_options)
      (fun e => append_file (Py.join out_dir "compression_and_tiling_errors.txt")
                            (file +:+ tab +:+ exn_str e +:+ newline)).

Definition batch_compress_and_tile (list_of_files : list string) (out_dir : string)
  : M Machine unit :=
  os_chdir out_dir ;;
  for_ list_of_files (compress_and_tile_one out_dir).

Definition create_overviews_one (f : string) : M Machine unit :=
  im <- gdal_Open f ;;
  levels <- gets (fun m => overview_levels (self m)) ;;
  dataset_BuildOverviews im "CUBIC" levels ;;
  dataset_close im.

Definition batch_create_overviews (list_of_files : iterable) : M Machine unit :=
  for_ (iter list_of_files) create_overviews_one.

Definition create_cog_one (out : string) (trans_opt : TranslateOptions) (file : string)
  : M Machine unit :=
  let out_name := out_name_of file in
  ex <- os_path_exists out_name ;;
  if ex then ret tt   (* continue *)
  else
    try_except (gdal_Translate out_name file trans_opt)
      (fun e => append_file (Py.join out "COG_creation_errors.txt")
                            (file +:+ tab +:+ exn_str e +:+ newline)).

Definition batch_create_cog (list_of_files : list string) (out_dir : string)
  : M Machine unit :=
  o <- gets self ;;
  let trans_str :=
    "-co TILED=YES "
    +:+ "-co COPY_SRC_OVERVIEWS=YES "
    +:+ "-co COMPRESS=" +:+ compress_method o +:+ " "
    +:+ "-co NUM_THREADS=ALL_CPUS "
    +:+ "-co BLOCKXSIZE=" +:+ Py.str_of_N (blockxsize o) +:+ " "
    +:+ "-co BLOCKYSIZE=" +:+ Py.str_of_N (blockysize o) in
  let tp := ParseCommandLine trans_str in
  let trans_opt := TranslateOptions_of tp in
  let out := Py.join out_dir "COG" in
  os_mkdir out ;;
  os_chdir out ;;
  for_ list_of_files (create_cog_one out trans_opt).

Definition remove_intermediate_tif (in_dir : string) : M Machine unit :=
  l <- gets (fun m => glob (Py.join in_dir "*.tif") (fs m)) ;;
  for_ l os_remove.

(** [run_cog_conversion], from the two directories the dialogs return *)
Definition run_cog_conversion (idir odir : string) : M Machine unit :=
  flist <- gets (fun m =>
    (glob (Py.join idir "*.asc") (fs m) ++ glob (Py.join idir "*.dem") (fs m)
     ++ glob (Py.join idir "*.tif") (fs m))%list) ;;
  batch_compress_and_tile flist odir ;;
  batch_create_overviews (IterStr odir) ;;
  l <- gets (fun m => glob (Py.join odir "*.tif") (fs m)) ;;
  batch_create_cog l odir ;;
  remove_intermediate_tif odir.

End Methods.

End CreateCOG.

(** ** Check_Corrupt_Jpg.py *)

Module CheckCorruptJpg.

(** A line of standard output.  The size is printed in megabytes; the
    line keeps the byte count it is computed from.  The line that reports
    the elapsed seconds carries no value. *)
Inductive out_line :=
  | OutInfo (file : string) (st_size : N)
  | OutBands (count cols rows : N)
  | OutText (s : string)
  | OutElapsed.

(** The state of the script.  [global_e] is the module-level name [e]:
    the text of the object bound to it, [None] while it is unbound. *)
Record Machine := mkMachine {
  global_e : option string;
  fs : FS;
  stdout : list out_line;
  trace : list event
}.

(** The script starts with [e] unbound, and none of its statements
    assigns it. *)
Definition start (fs0 : FS) : Machine := mkMachine None fs0 [] [].

Definition emit (ev : event) (m : Machine) : Machine :=
  mkMachine (global_e m) (fs m) (stdout m) (trace m ++ [ev])%list.
Definition print (l : out_line) : M Machine unit :=
  modify (fun m => mkMachine (global_e m) (fs m) (stdout m ++ [l])%list (trace m)).

(** loading the global name [e] *)
Definition load_e : M Machine string :=
  fun m => match global_e m with
           | Some v => (m, Return v)
           | None => (m, Raise (Exn NameError ("name " +:+ repr "e" +:+ " is not defined")))
           end.

(** [os.stat(file).st_size] *)
Definition os_stat_size (file : string) : M Machine N :=
  fun m =>
    if bool_decide (file = EmptyString) then (m, Raise (enoent file))
    else match files (fs m) !! resolve (fs m) file with
         | Some content => (m, Return (N.of_nat (String.length content)))
         | None => if is_dir (fs m) file then (m, Return 0%N) else (m, Raise (enoent file))
         end.

(** the row [csv.writer(csvfile, delimiter=',').writerow(x)] adds, for
    fields that need no quoting *)
Definition csv_row (fields : list string) : string :=
  String.concat "," fields +:+ String (ascii_of_nat 13) newline.

Definition write_row (fields : list string) : M Machine unit :=
  fun m => match fs_append "image_errors.csv" (csv_row fields) (fs m) with
           | inr fs' => (mkMachine (global_e m) fs' (stdout m) (trace m), Return tt)
           | inl e => (m, Raise e)
           end.

Section Script.
Context {G : Gdal}.

Definition gdal_Open (f : string) : M Machine Dataset :=
  fun m =>
    let m1 := emit (EvOpen f) m in
    match Open f (fs m) with
    | Opened x y c => (m1, Return (mkDataset f x y c))
    | OpenFail msg => (m1, Raise (Exn RuntimeError msg))
    end.

(** the body of the [try] *)
Definition inspect (file : string) : M Machine unit :=
  jpg <- gdal_Open file ;;
  size <- os_stat_size file ;;
  let cols := RasterXSize jpg in
  let rows := RasterYSize jpg in
  print (OutInfo file size) ;;
  print (OutBands (RasterCount jpg) cols rows) ;;
  modify (emit (EvClose (ds_path jpg))).

(** the suite of the [except] clause *)
Definition report (file e : string) : M Machine unit :=
  print (OutText ("Unable to open " +:+ file)) ;;
  print (OutText e) ;;
  let x := [file; e] in
  write_row x.

(** [try: ... except (RuntimeError, e): ...]: when the body raises, the
    tuple after [except] is evaluated, which loads the global [e], before
    the exception is matched against it *)
Definition scan_one (file : string) : M Machine unit :=
  try_except (inspect file)
    (fun exc =>
       e <- load_e ;;
       if bool_decide (exn_cls exc = RuntimeError) then report file e
       else raise exc).

(** the loop over [lst], the paths the recursive glob returned, and the
    two lines printed at the end *)
Definition scan (lst : list string) : M Machine unit :=
  for_ lst scan_one ;;
  print OutElapsed ;;
  print (OutText (Py.str_of_N (N.of_nat (length lst)) +:+ " files")).

End Script.

End CheckCorruptJpg.

(** ** A stub library

    It translates every source into a fixed content and opens every
    existing file, except for the sources listed in [bad], on which each
    operation fails. *)

Module Stub.

Definition parse (s : string) : list string :=
  filter (fun t => negb (bool_decide (t = EmptyString))) (Py.split " " s).

Definition gdal (bad : list string) : Gdal := {|
  ParseCommandLine := parse;
  Translate := fun dst src _ _ =>
    if bool_decide (src ∈ bad) then TranslateFail ("cannot open " +:+ src) None
    else TranslateOk "GTiff";
  Open := fun f fs0 =>
    if bool_decide (f ∈ bad) || negb (is_file fs0 f) then OpenFail ("cannot open " +:+ f)
    else Opened 1 1 1;
  BuildOverviews := fun im _ _ fs0 =>
    if bool_decide (ds_path im ∈ bad) then (files fs0, Some ("cannot build " +:+ ds_path im))
    else (files fs0, None)
|}.

(** The same library, except that it opens every existing file and
    builds the overviews of a raster into a file next to it, named after
    it with [.ovr] added, failing on the rasters listed in [bad]. *)
Definition gdal_ovr (bad : list string) : Gdal := {|
  ParseCommandLine := parse;
  Translate := fun dst src _ _ => TranslateOk "GTiff";
  Open := fun f fs0 =>
    if is_file fs0 f then Opened 1 1 1 else OpenFail ("cannot open " +:+ f);
  BuildOverviews := fun im _ _ fs0 =>
    if bool_decide (ds_path im ∈ bad) then (files fs0, Some ("cannot build " +:+ ds_path im))
    else (<[ resolve fs0 (ds_path im +:+ ".ovr") := "overviews" ]> (files fs0), None)
|}.

(** a file system from its files, directories and working directory, on
    which the operating system refuses nothing *)
Definition disk (fl : list (string * string)) (dl : list string) (wd : string) : FS :=
  mkFS (list_to_map fl) (list_to_set dl) wd ∅.

(** a fresh instance on such a file system, nothing called yet *)
Definition machine (fl : list (string * string)) (dl : list string) (wd : string)
  : CreateCOG.Machine :=
  CreateCOG.mkMachine CreateCOG.init (disk fl dl wd) [].

(** two inputs; the first already has its output and its COG *)
Definition m_rerun : CreateCOG.Machine :=
  machine [("/in/x.dem", "dem"); ("/in/y.dem", "dem");
           ("/out/x.tif", "old"); ("/out/COG/x.tif", "old cog")]
          ["/"; "/in"; "/out"; "/out/COG"] "/".

(** two inputs and an empty output directory, entered or not, and the
    same seen from inside an empty COG directory *)
Definition m_fresh : CreateCOG.Machine :=
  machine [("/in/a.dem", "dem"); ("/in/b.dem", "dem")] ["/"; "/in"; "/out"] "/".
Definition m_in_out : CreateCOG.Machine :=
  machine [("/in/a.dem", "dem"); ("/in/b.dem", "dem")] ["/"; "/in"; "/out"] "/out".
Definition m_in_cog : CreateCOG.Machine :=
  machine [("/out/a.tif", "GTiff"); ("/out/b.tif", "GTiff")]
          ["/"; "/out"; "/out/COG"] "/out/COG".

(** the output directory is reached by a relative path: before the
    convert stage, and before the COG stage *)
Definition m_work : CreateCOG.Machine :=
  machine [("/in/a.dem", "dem"); ("/in/b.dem", "dem")]
          ["/"; "/in"; "/work"; "/work/out"] "/work".
Definition m_work_tiled : CreateCOG.Machine :=
  machine [("/work/out/a.tif", "GTiff"); ("/work/out/b.tif", "GTiff")]
          ["/"; "/work"; "/work/out"] "/work".

(** an output directory after the convert stage, no COG directory yet *)
Definition m_tiled : CreateCOG.Machine :=
  machine [("/out/a.tif", "GTiff"); ("/out/b.tif", "GTiff")] ["/"; "/out"] "/".

(** two intermediates of one name in two directories, no COG directory yet *)
Definition m_tiled_twins : CreateCOG.Machine :=
  machine [("/a/x.tif", "GTiff"); ("/b/x.tif", "GTiff")] ["/"; "/a"; "/b"; "/out"] "/".

(** two inputs of one basename, and one whose name carries an unknown zone *)
Definition m_twins : CreateCOG.Machine :=
  machine [("/in/x.asc", "asc"); ("/in/x.dem", "dem")] ["/"; "/in"; "/out"] "/".
Definition m_zone : CreateCOG.Machine :=
  machine [("/in/a_utm12.dem", "dem"); ("/in/b.dem", "dem")] ["/"; "/in"; "/out"] "/".

(** an output directory after both stages: two intermediates, a note, and
    the COG directory with one COG *)
Definition m_done : CreateCOG.Machine :=
  machine [("/out/a.tif", "GTiff"); ("/out/b.tif", "GTiff"); ("/out/notes.txt", "n");
           ("/out/COG/a.tif", "COG")]
          ["/"; "/out"; "/out/COG"] "/out/COG".

(** the same, with the removal of the two intermediates refused for want
    of permission *)
Definition m_locked : CreateCOG.Machine :=
  CreateCOG.mkMachine CreateCOG.init
    (mkFS (files (CreateCOG.fs m_done)) (dirs (CreateCOG.fs m_done)) "/out/COG"
          (list_to_map [("/out/a.tif", EACCES); ("/out/b.tif", EACCES)])) [].

(** the sources of the translate calls in a trace, oldest first *)
Definition translate_sources (evs : list event) : list string :=
  omap (fun ev => match ev with EvTranslate _ src _ => Some src | _ => None end) evs.

End Stub.

(** ** Vocabulary of the properties *)

(** [fs'] differs from [fs0] at most in the files at [paths]. *)
Definition frame_except (paths : list string) (fs0 fs' : FS) : Prop :=
  dirs fs' = dirs fs0 /\ cwd fs' = cwd fs0 /\ refused fs' = refused fs0
  /\ forall q, q ∉ paths -> files fs' !! q = files fs0 !! q.

(** the file system as seen after a successful [os.chdir(d)] *)
Definition entered (d : string) (fs0 : FS) : FS :=
  mkFS (files fs0) (dirs fs0) (resolve fs0 d) (refused fs0).

(** a canonical path: absolute with a single leading slash, and equal to
    its normal form *)
Definition is_canonical (p : string) : bool :=
  Py.startswith "/" p && negb (Py.startswith "//" p) && bool_decide (Py.normpath p = p).

(** can [open(p, 'a+')] succeed? *)
Definition can_append (fs0 : FS) (p : string) : bool :=
  negb (bool_decide (p = EmptyString)) && negb (is_dir fs0 p)
  && bool_decide (Py.dirname (resolve fs0 p) ∈ dirs fs0)
  && bool_decide (refused fs0 !! resolve fs0 p = None).

Definition is_translate (ev : event) : bool :=
  match ev with EvTranslate _ _ _ => true | _ => false end.

(** an event that is no translate call from the source [f] or to its
    derived output name *)
Definition not_for (f : string) (ev : event) : Prop :=
  match ev with
  | EvTranslate dst src _ => src <> f /\ dst <> CreateCOG.out_name_of f
  | _ => True
  end.

(** the calls the overview builder makes for the files of [l] when none
    fails: open, build at the given levels with the CUBIC kernel, close *)
Definition overview_script (levels : list N) (l : list string) : list event :=
  concat (map (fun f => [EvOpen f; EvBuildOverviews f "CUBIC" levels; EvClose f]) l).

(** the state after the raster [f] was opened from [m] and the library,
    asked for overviews at [levels] with the CUBIC kernel, left the files
    [files'] *)
Definition overviews_built (f : string) (levels : list N) (files' : gmap string string)
    (m : CreateCOG.Machine) : CreateCOG.Machine :=
  CreateCOG.mkMachine (CreateCOG.self m)
    (mkFS files' (dirs (CreateCOG.fs m)) (cwd (CreateCOG.fs m)) (refused (CreateCOG.fs m)))
    (CreateCOG.trace m ++ [EvOpen f; EvBuildOverviews f "CUBIC" levels]).


(** the error logs of the converter and of the assembler *)
Definition convert_log (out_dir : string) : string :=
  Py.join out_dir "compression_and_tiling_errors.txt".
Definition cog_log (out : string) : string :=
  Py.join out "COG_creation_errors.txt".

Section Shared.
Context {G : Gdal}.

(** the [try] statement both loops share *)
Definition logged_translate (logp dst src : string) (opts : TranslateOptions)
  : M CreateCOG.Machine unit :=
  try_except (CreateCOG.gdal_Translate dst src opts)
    (fun e => CreateCOG.append_file logp (src +:+ tab +:+ exn_str e +:+ newline)).

End Shared.

(** A run from [m] that ended in [run] left the input file [f] alone, its
    derived output being looked up from the directory of [view]: the run
    is the very run made on the list without [f] (same final state, logs
    included, same result); no translate call it recorded has [f] as source
    or the derived name as destination; and the file at the derived path
    is the one that was there. *)
Definition left_untouched (f : string) (view : FS) (m : CreateCOG.Machine)
    (run run_without : CreateCOG.Machine * result unit) : Prop :=
  run_without = run
  /\ (exists evs, CreateCOG.trace run.1 = CreateCOG.trace m ++ evs /\ Forall (not_for f) evs)
  /\ files (CreateCOG.fs run.1) !! resolve view (CreateCOG.out_name_of f)
     = files (CreateCOG.fs m) !! resolve view (CreateCOG.out_name_of f).

(** a computation that records only events satisfying [P] *)
Definition emits {A} (P : event -> Prop) (c : M CreateCOG.Machine A) : Prop :=
  forall m m' r, c m = (m', r) ->
    exists evs, CreateCOG.trace m' = CreateCOG.trace m ++ evs /\ Forall P evs.

(** an event of the overview builder on a file named by one character of
    [s]; translate calls are left free *)
Definition on_chars_of (s : string) (ev : event) : Prop :=
  match ev with
  | EvTranslate _ _ _ => True
  | EvOpen f | EvBuildOverviews f _ _ | EvClose f => f ∈ chars s
  end.

(** the paths of the open calls in a trace, oldest first *)
Definition opened (evs : list event) : list string :=
  omap (fun ev => match ev with EvOpen f => Some f | _ => None end) evs.

(** a translate call from a file of [l] onto its derived output name *)
Definition call_of (l : list string) (ev : event) : Prop :=
  exists g opts, g ∈ l /\ ev = EvTranslate (CreateCOG.out_name_of g) g opts.

(** a path whose last component ends in one of the three extensions the
    driver lists *)
Definition has_listed_extension (p : string) : Prop :=
  exists stem ext, ext ∈ [".asc"; ".dem"; ".tif"] /\ Py.basename p = stem +:+ ext.

(** an event of the driver that, if it is a translate call, goes from a
    source with a listed extension onto the derived name of that source *)
Definition listed_call (ev : event) : Prop :=
  match ev with
  | EvTranslate dst src _ => dst = CreateCOG.out_name_of src /\ has_listed_extension src
  | _ => True
  end.

(** the files of [fs0] less those the names of [l] resolve to *)
Definition removed_from (fs0 : FS) (l : list string) : gmap string string :=
  foldl (fun acc q => delete (resolve fs0 q) acc) (files fs0) l.

(** the calls the scanner makes for the files of [l] when none fails *)
Definition scan_script (l : list string) : list event :=
  concat (map (fun f => [EvOpen f; EvClose f]) l).

(** the exception raised when the unbound name [e] is loaded *)
Definition name_error_e : exn := Exn NameError "name 'e' is not defined".



(** * Properties *)

(** ** Sanity checks of the string operations *)

Example basename_ex : Py.basename "/in/a_utm10.dem" = "a_utm10.dem".
Proof. reflexivity. Qed.

Example splitext_ex :
  Py.splitext "a_utm10.dem" = ("a_utm10", ".dem")
  /\ Py.splitext ".bashrc" = (".bashrc", "")
  /\ Py.splitext "a.tar.gz" = ("a.tar", ".gz")
  /\ Py.splitext "/x.y/abc" = ("/x.y/abc", "")
  /\ Py.splitext "..." = ("...", "")
  /\ Py.splitext "..a.b" = ("..a", ".b").
Proof. repeat split; reflexivity. Qed.

Example split_ex : Py.split "_" "a__utm10_" = ["a"; ""; "utm10"; ""].
Proof. reflexivity. Qed.

Example join_ex :
  Py.join "/out" "COG" = "/out/COG" /\ Py.join "/out/" "COG" = "/out/COG"
  /\ Py.join "/out" "/abs" = "/abs" /\ Py.join "" "COG" = "COG".
Proof. repeat split; reflexivity. Qed.

Example dirname_ex :
  Py.dirname "/out/log.txt" = "/out" /\ Py.dirname "/log.txt" = "/"
  /\ Py.dirname "log.txt" = "" /\ Py.dirname "/a//b" = "/a".
Proof. repeat split; reflexivity. Qed.

Example normpath_ex :
  map Py.normpath ["/out/"; "/out/."; "/in/../out"; "//out"; "///out"; ""; "/.."; "a/../.."]
  = ["/out"; "/out"; "/out"; "//out"; "/out"; "."; "/"; ".."].
Proof. reflexivity. Qed.

Example is_canonical_ex :
  map is_canonical ["/out"; "/"; "/out/COG/a.tif"; "/out/"; "/out/."; "/in/../out"; "//out"; "out"]
  = [true; true; true; false; false; false; false; false].
Proof. reflexivity. Qed.

Example has_magic_ex :
  map Py.has_magic ["/out"; "/data/tiles[2019]"; "/o[u]t"; "/a*"; "/b?"]
  = [false; true; true; true; true].
Proof. reflexivity. Qed.

Example repr_ex :
  repr "utm12" = "'utm12'"
  /\ repr "it's" = String dquote "it's" +:+ String dquote EmptyString
  /\ repr ("a" +:+ String backslash "b") = "'a" +:+ String backslash (String backslash "b'")
  /\ repr ("a" +:+ tab) = "'a" +:+ String backslash "t'".
Proof. repeat split; reflexivity. Qed.

Example str_ex :
  Py.str_of_optional (Some 3157%N) = "3157" /\ Py.str_of_optional None = "None".
Proof. split; reflexivity. Qed.

Example tokens_ex : CreateCOG.tokens_of "/in/bc_092g025_utm10_2019.dem" = ["bc"; "092g025"; "utm10"; "2019"].
Proof. reflexivity. Qed.

(** a decidable closed proposition, settled by evaluation *)
Ltac by_decide :=
  match goal with |- ?P => apply (bool_decide_unpack P); vm_compute; exact I end.

(** inclusion between explicit lists *)
Ltac sublist := intros ?; rewrite ?elem_of_cons; tauto.

(** ** The state-and-exception monad *)

Section MonadLaws.
Context {S A B : Type}.

Lemma bind_return (m : M S A) (k : A -> M S B) s s' a :
  m s = (s', Return a) -> bind m k s = k a s'.
Proof. intros H. unfold bind. by rewrite H. Qed.

Lemma bind_raise (m : M S A) (k : A -> M S B) s s' e :
  m s = (s', Raise e) -> bind m k s = (s', Raise e).
Proof. intros H. unfold bind. by rewrite H. Qed.

Lemma for_cons (x : A) l (body : A -> M S unit) s :
  for_ (x :: l) body s = bind (body x) (fun _ => for_ l body) s.
Proof. reflexivity. Qed.

Lemma for_skip (x : A) l (body : A -> M S unit) s :
  body x s = (s, Return tt) -> for_ (x :: l) body s = for_ l body s.
Proof. intros H. rewrite for_cons. unfold bind. by rewrite H. Qed.

Lemma for_app (l1 l2 : list A) (body : A -> M S unit) s :
  for_ (l1 ++ l2) body s
  = match for_ l1 body s with
    | (s', Return _) => for_ l2 body s'
    | (s', Raise e) => (s', Raise e)
    end.
Proof.
  revert s. induction l1 as [|x l1 IH]; intros s; [done|].
  rewrite <- app_comm_cons, !for_cons. unfold bind.
  destruct (body x s) as [s1 [[]|e]]; [apply IH|done].
Qed.

End MonadLaws.

(** ** The projection resolver *)

Section Resolver.
Import CreateCOG.

Lemma epsg_scan_skip pre rest m :
  Forall (fun t => names_projection t = false) pre ->
  epsg_scan (pre ++ rest) m = epsg_scan rest m.
Proof.
  induction 1 as [|t pre Ht _ IH]; [done|].
  simpl. by rewrite Ht.
Qed.

Lemma recognized_token tok code :
  (tok, code) ∈ [("utm08", 3155%N); ("utm8", 3155%N); ("utm09", 3156%N); ("utm9", 3156%N);
                 ("utm10", 3157%N); ("utm11", 2955%N); ("bcalb", 3005%N)] ->
  names_projection tok = true /\ PROJECTIONS !! tok = Some code.
Proof.
  intros H. repeat (apply elem_of_cons in H as [H|H]; [injection H as -> ->; by vm_compute|]).
  by apply elem_of_nil in H.
Qed.

(** C3 (as amended): when the leftmost token of the basename that contains
    utm or bcalb is one of the seven recognized tokens, the resolver sets
    the spatial reference to that token's code from the table (3155, 3155,
    3156, 3156, 3157, 2955, 3005) and changes nothing else; tokens to the
    right of it play no part. *)
Theorem epsg_from_filename_leftmost filename pre tok post code m :
  tokens_of filename = pre ++ tok :: post ->
  Forall (fun t => names_projection t = false) pre ->
  (tok, code) ∈ [("utm08", 3155%N); ("utm8", 3155%N); ("utm09", 3156%N); ("utm9", 3156%N);
                 ("utm10", 3157%N); ("utm11", 2955%N); ("bcalb", 3005%N)] ->
  epsg_from_filename filename m = (with_self (set_epsg (Some code)) m, Return tt).
Proof.
  intros Htok Hpre Hrec. apply recognized_token in Hrec as [Hn Hl].
  unfold epsg_from_filename. rewrite Htok, (epsg_scan_skip _ _ _ Hpre).
  simpl. by rewrite Hn, Hl.
Qed.

Lemma epsg_from_filename_leftmost_witness :
  epsg_from_filename "/in/bc_092g025_utm10_bcalb.dem" (mkMachine init (Stub.disk [] ["/"] "/") [])
  = (mkMachine (set_epsg (Some 3157%N) init) (Stub.disk [] ["/"] "/") [], Return tt).
Proof.
  apply (epsg_from_filename_leftmost "/in/bc_092g025_utm10_bcalb.dem"
           ["bc"; "092g025"] "utm10" ["bcalb"] 3157%N).
  - reflexivity.
  - repeat constructor.
  - by_decide.
Defined.

(** C3 as stated fails: the basename below has the recognized token utm10,
    but the token utm12 to its left passes the substring test and is not a
    key of the table, so the lookup raises [KeyError] and the spatial
    reference is not set. *)
Lemma epsg_from_filename_recognized_counterexample :
  "utm10" ∈ tokens_of "/in/x_utm12_utm10.dem"
  /\ epsg_from_filename "/in/x_utm12_utm10.dem" (mkMachine init (Stub.disk [] ["/"] "/") [])
     = (mkMachine init (Stub.disk [] ["/"] "/") [], Raise (Exn KeyError "'utm12'")).
Proof. split; [by_decide | reflexivity]. Qed.

Lemma epsg_scan_no_match tokens m :
  Forall (fun t => names_projection t = false) tokens ->
  epsg_scan tokens m = (m, Return tt).
Proof.
  intros H. rewrite <- (app_nil_r tokens). by rewrite epsg_scan_skip.
Qed.

(** C4 (as amended): when no token of the basename contains utm or bcalb,
    the resolver raises nothing and leaves the instance as it was: the
    spatial reference keeps the value it had before the call, null when it
    was null. *)
Theorem epsg_from_filename_no_match filename m :
  Forall (fun t => names_projection t = false) (tokens_of filename) ->
  epsg_from_filename filename m = (m, Return tt).
Proof. apply epsg_scan_no_match. Qed.

Lemma epsg_from_filename_no_match_witness :
  epsg_from_filename "/in/c_badtoken.tif" (mkMachine init (Stub.disk [] ["/"] "/") [])
  = (mkMachine init (Stub.disk [] ["/"] "/") [], Return tt).
Proof.
  apply (epsg_from_filename_no_match "/in/c_badtoken.tif").
  repeat constructor.
Defined.

(** C4 as stated fails twice.  A token that is none of the seven spellings
    but contains utm makes the lookup raise [KeyError]; and a file without
    any such token, resolved after a file that set the reference, keeps
    that earlier reference instead of a null one. *)
Lemma epsg_from_filename_unrecognized_counterexample :
  (Forall (fun t => t ∉ ["utm08"; "utm8"; "utm09"; "utm9"; "utm10"; "utm11"; "bcalb"])
          (tokens_of "/in/a_utm12.dem")
   /\ epsg_from_filename "/in/a_utm12.dem" (mkMachine init (Stub.disk [] ["/"] "/") [])
      = (mkMachine init (Stub.disk [] ["/"] "/") [], Raise (Exn KeyError "'utm12'")))
  /\ (Forall (fun t => t ∉ ["utm08"; "utm8"; "utm09"; "utm9"; "utm10"; "utm11"; "bcalb"])
             (tokens_of "/in/c_badtoken.tif")
      /\ exists m',
          (epsg_from_filename "/in/a_utm10.dem" ;; epsg_from_filename "/in/c_badtoken.tif")
            (mkMachine init (Stub.disk [] ["/"] "/") []) = (m', Return tt)
          /\ epsg (self m') = Some 3157%N).
Proof.
  split; split.
  - by_decide.
  - reflexivity.
  - by_decide.
  - eexists. split; reflexivity.
Qed.

End Resolver.

(** ** The translate-options builder *)

Section Options.
Import CreateCOG.
Context {G : Gdal}.

Lemma create_translate_options_other m :
  compress_method (self m) <> "JPEG" ->
  exists opts, create_translate_options m = (m, Return opts).
Proof.
  intros Hne. unfold create_translate_options, bind, gets; simpl.
  rewrite bool_decide_eq_false_2 by done. simpl. by eexists.
Qed.

Lemma create_translate_options_jpeg m :
  compress_method (self m) = "JPEG" ->
  exists opts,
    create_translate_options m
    = (with_self (set_compress_method "JPEG -co JPEG_QUALITY=75") m, Return opts).
Proof.
  intros He. unfold create_translate_options, bind, gets; simpl.
  rewrite bool_decide_eq_true_2 by done. simpl.
  unfold with_self; simpl. rewrite He. by eexists.
Qed.


End Options.

(** ** Paths: an output name and an error log never coincide *)

Section Paths.

Lemma last_char_app a b : b <> EmptyString -> Py.last_char (a +:+ b) = Py.last_char b.
Proof.
  intros Hb. induction a as [|c a IH]; [done|].
  simpl. rewrite IH. destruct b; [done|]. simpl. by destruct (Py.last_char b).
Qed.

Lemma last_char_nonempty s c : Py.last_char s = Some c -> s <> EmptyString.
Proof. by destruct s. Qed.

Lemma last_char_join a b c : Py.last_char b = Some c -> Py.last_char (Py.join a b) = Some c.
Proof.
  intros Hb. pose proof (last_char_nonempty _ _ Hb) as Hne.
  unfold Py.join. destruct (Py.startswith "/" b); [done|].
  destruct (_ || _).
  - by rewrite last_char_app.
  - rewrite (last_char_app a) by done. by rewrite (last_char_app "/").
Qed.

Lemma out_name_last_char file : Py.last_char (CreateCOG.out_name_of file) = Some "f"%char.
Proof. unfold CreateCOG.out_name_of. by rewrite last_char_app. Qed.

Lemma out_name_nonempty file : CreateCOG.out_name_of file <> EmptyString.
Proof. eapply last_char_nonempty, out_name_last_char. Qed.

(** The resolved path of a derived output name differs from the resolved
    path of a log whose name ends in the letter t. *)
Lemma out_name_not_log fs0 fs1 file logp :
  Py.last_char logp = Some "t"%char ->
  resolve fs0 (CreateCOG.out_name_of file) <> resolve fs1 logp.
Proof.
  intros Hn Heq. apply (f_equal Py.last_char) in Heq. unfold resolve in Heq.
  rewrite (last_char_join _ _ _ (out_name_last_char file)) in Heq.
  by rewrite (last_char_join _ _ _ Hn) in Heq.
Qed.

Lemma rfind_slice c p i : Py.rfind c p = Some i -> Py.rfind c (Py.slice_from (S i) p) = None.
Proof.
  revert i. induction p as [|a p IH]; intros i; [done|].
  simpl. destruct (Py.rfind c p) as [j|] eqn:Hr.
  - intros [= <-]. by apply IH.
  - case_decide; [|done]. intros [= <-]. by destruct p.
Qed.

Lemma rfind_basename p : Py.rfind "/" (Py.basename p) = None.
Proof.
  unfold Py.basename. destruct (Py.rfind "/" p) as [i|] eqn:Hr; [|done].
  by apply rfind_slice.
Qed.

Lemma rfind_none_head c s t : Py.rfind c (String c s) = None -> t = s -> False.
Proof. simpl. destruct (Py.rfind c s); [done|]. by case_decide. Qed.

Lemma slice_to_head d b :
  Py.slice_to d b = EmptyString
  \/ exists a t t', Py.slice_to d b = String a t /\ b = String a t'.
Proof. destruct d, b; simpl; eauto. right. by eexists _, _, _. Qed.

Lemma startswith_slash a s : Py.startswith "/" (String a s) = bool_decide (a = "/"%char).
Proof.
  unfold Py.startswith. cbn [String.prefix].
  destruct (ascii_dec "/" a) as [<-|Hne].
  - rewrite bool_decide_eq_true_2 by done. by destruct s.
  - by rewrite bool_decide_eq_false_2 by congruence.
Qed.

(** a derived output name is never an absolute path *)
Lemma out_name_relative file : Py.startswith "/" (CreateCOG.out_name_of file) = false.
Proof.
  unfold CreateCOG.out_name_of. pose proof (rfind_basename file) as Hb.
  set (b := Py.basename file) in *.
  assert (Hstem : (Py.splitext b).1 = b \/ exists d, (Py.splitext b).1 = Py.slice_to d b).
  { unfold Py.splitext. repeat case_match; simpl; eauto. }
  assert (Hhead : forall t, b <> String "/" t).
  { intros t Hbt. rewrite Hbt in Hb. by eapply rfind_none_head. }
  destruct Hstem as [->|[d ->]].
  - destruct b as [|a t]; [done|].
    change (String a t +:+ ".tif") with (String a (t +:+ ".tif")).
    rewrite startswith_slash. apply bool_decide_eq_false_2. intros ->. by eapply Hhead.
  - destruct (slice_to_head d b) as [->|(a & t & t' & -> & Hbe)]; [done|].
    change (String a t +:+ ".tif") with (String a (t +:+ ".tif")).
    rewrite startswith_slash. apply bool_decide_eq_false_2. intros ->. by eapply Hhead.
Qed.

Lemma app_cancel a x y : a +:+ x = a +:+ y -> x = y.
Proof. induction a as [|c a IH]; simpl; [done|]. intros [= H]. auto. Qed.

Lemma join_relative_inj c x y :
  Py.startswith "/" x = false -> Py.startswith "/" y = false ->
  Py.join c x = Py.join c y -> x = y.
Proof.
  unfold Py.join. intros -> ->. destruct (_ || _).
  - apply app_cancel.
  - intros H. by apply app_cancel, (app_cancel "/") in H.
Qed.

(** distinct derived names resolve to distinct paths *)
Lemma resolve_out_name_inj fs0 f g :
  resolve fs0 (CreateCOG.out_name_of f) = resolve fs0 (CreateCOG.out_name_of g) ->
  CreateCOG.out_name_of f = CreateCOG.out_name_of g.
Proof. apply join_relative_inj; apply out_name_relative. Qed.

End Paths.

(** ** Frames of the file-system operations *)

Section Frames.

Lemma frame_refl paths fs0 : frame_except paths fs0 fs0.
Proof. by repeat split. Qed.

Lemma frame_weaken paths paths' fs0 fs' :
  paths ⊆ paths' -> frame_except paths fs0 fs' -> frame_except paths' fs0 fs'.
Proof.
  intros Hsub (Hd & Hc & Hr & Hf). repeat split; [done..|].
  intros q Hq. apply Hf. intros Hin. by apply Hq, Hsub.
Qed.

Lemma frame_trans paths fs0 fs1 fs2 :
  frame_except paths fs0 fs1 -> frame_except paths fs1 fs2 -> frame_except paths fs0 fs2.
Proof.
  intros (Hd & Hc & Hr & Hf) (Hd' & Hc' & Hr' & Hf'). repeat split; [congruence..|].
  intros q Hq. rewrite Hf', Hf; done.
Qed.

Lemma fs_write_frame p content fs0 : frame_except [resolve fs0 p] fs0 (fs_write p content fs0).
Proof.
  repeat split. intros q Hq. unfold fs_write. cbn [files]. apply lookup_insert_ne.
  intros <-. apply Hq. by left.
Qed.

Lemma fs_append_frame p text fs0 fs' :
  fs_append p text fs0 = inr fs' -> frame_except [resolve fs0 p] fs0 fs'.
Proof.
  unfold fs_append. intros H.
  repeat case_match; simplify_eq.
  repeat split. intros q Hq. cbn [files]. apply lookup_insert_ne.
  intros <-. apply Hq. by left.
Qed.

Lemma fs_append_content p text fs0 fs' :
  fs_append p text fs0 = inr fs' ->
  files fs' !! resolve fs0 p = Some (default EmptyString (files fs0 !! resolve fs0 p) +:+ text).
Proof.
  unfold fs_append. intros H.
  repeat case_match; simplify_eq. cbn [files]. apply lookup_insert_eq.
Qed.

(** existence of a path is decided by the directories and by the file at
    its resolved path *)
Lemma path_exists_frame paths fs0 fs' p :
  frame_except paths fs0 fs' -> resolve fs0 p ∉ paths ->
  path_exists fs' p = path_exists fs0 p.
Proof.
  intros (Hd & Hc & _ & Hf) Hp. unfold path_exists, is_file, is_dir, resolve in *.
  rewrite Hd, Hc, (Hf _ Hp). done.
Qed.

Lemma path_exists_resolve fs0 p q :
  p <> EmptyString -> q <> EmptyString -> resolve fs0 p = resolve fs0 q ->
  path_exists fs0 p = path_exists fs0 q.
Proof.
  intros Hp Hq He. unfold path_exists, is_file, is_dir. rewrite He.
  by rewrite (bool_decide_eq_false_2 _ Hp), (bool_decide_eq_false_2 _ Hq).
Qed.

End Frames.

(** ** One translate call with its error handler *)

Section Logged.
Import CreateCOG.
Context {G : Gdal}.

Lemma resolve_cwd fs0 fs1 p : cwd fs1 = cwd fs0 -> resolve fs1 p = resolve fs0 p.
Proof. unfold resolve. by intros ->. Qed.

Lemma fs_chdir_entered d fs0 fs1 : fs_chdir d fs0 = inr fs1 -> fs1 = entered d fs0.
Proof. unfold fs_chdir. intros H. by repeat case_match; simplify_eq. Qed.

Lemma fs_append_ok p text fs0 :
  can_append fs0 p = true ->
  exists fs', fs_append p text fs0 = inr fs'.
Proof.
  unfold can_append, fs_append. intros H.
  apply andb_prop in H as [H H4]. apply andb_prop in H as [H H3].
  apply andb_prop in H as [H1 H2].
  apply negb_true_iff in H1, H2. apply bool_decide_eq_true_1 in H4.
  rewrite H1, H2, H3, H4. by eexists.
Qed.

Lemma can_append_frame paths fs0 fs' p :
  frame_except paths fs0 fs' -> can_append fs' p = can_append fs0 p.
Proof.
  intros (Hd & Hc & Hr & _). unfold can_append, is_dir, resolve. by rewrite Hd, Hc, Hr.
Qed.

Lemma logged_translate_ok logp dst src opts m content :
  Translate dst src opts (fs m) = TranslateOk content ->
  logged_translate logp dst src opts m
  = (with_fs (fs_write dst content) (emit (EvTranslate dst src opts) m), Return tt).
Proof. intros H. unfold logged_translate, try_except, gdal_Translate. by rewrite H. Qed.

Lemma logged_translate_fail logp dst src opts m msg partial :
  Translate dst src opts (fs m) = TranslateFail msg partial ->
  logged_translate logp dst src opts m
  = append_file logp (src +:+ tab +:+ msg +:+ newline)
      (match partial with
       | Some content => with_fs (fs_write dst content) (emit (EvTranslate dst src opts) m)
       | None => emit (EvTranslate dst src opts) m
       end).
Proof. intros H. unfold logged_translate, try_except, gdal_Translate. by rewrite H. Qed.

Lemma append_file_inv p text m m' r :
  append_file p text m = (m', r) ->
  self m' = self m /\ trace m' = trace m /\ frame_except [resolve (fs m) p] (fs m) (fs m').
Proof.
  unfold append_file, os_call. destruct (fs_append p text (fs m)) as [e|fs'] eqn:Ha.
  - intros [= <- <-]. auto using frame_refl.
  - intros [= <- <-]. simpl. eauto using fs_append_frame.
Qed.

(** Whatever the outcome, the call is recorded once, the instance is left
    alone, and only the destination and the log can have changed. *)
Lemma logged_translate_inv logp dst src opts m m' r :
  logged_translate logp dst src opts m = (m', r) ->
  self m' = self m
  /\ trace m' = trace m ++ [EvTranslate dst src opts]
  /\ frame_except [resolve (fs m) dst; resolve (fs m) logp] (fs m) (fs m').
Proof.
  destruct (Translate dst src opts (fs m)) as [content|msg partial] eqn:Ht.
  - rewrite (logged_translate_ok _ _ _ _ _ _ Ht). intros [= <- <-]. simpl.
    split_and!; [done..|].
    apply (frame_weaken [resolve (fs m) dst]); [sublist|]. apply fs_write_frame.
  - rewrite (logged_translate_fail _ _ _ _ _ _ _ Ht). intros Ha.
    apply append_file_inv in Ha as (Hs & Htr & Hf). rewrite Hs, Htr.
    destruct partial as [content|]; simpl in *.
    + split_and!; [done..|].
      change (resolve (fs_write dst content (fs m)) logp) with (resolve (fs m) logp) in Hf.
      eapply frame_trans.
      * apply (frame_weaken [resolve (fs m) dst]); [sublist|]. apply fs_write_frame.
      * apply (frame_weaken [resolve (fs m) logp]); [sublist|]. apply Hf.
    + split_and!; [done..|].
      apply (frame_weaken [resolve (fs m) logp]); [sublist|]. apply Hf.
Qed.

End Logged.

(** ** The skip-if-exists loops *)

Lemma filter_ext_in {A} (P Q : A -> Prop) `{!forall x, Decision (P x)} `{!forall x, Decision (Q x)}
    (l : list A) :
  (forall x, x ∈ l -> P x <-> Q x) -> filter P l = filter Q l.
Proof.
  induction l as [|x l IH]; intros Hext; [done|].
  assert (Hx : P x <-> Q x) by (apply Hext; by left).
  assert (Hl : filter P l = filter Q l) by (apply IH; intros y Hy; apply Hext; by right).
  destruct (decide (P x)) as [HP|HP].
  - rewrite !filter_cons_True by tauto. by rewrite Hl.
  - rewrite !filter_cons_False by tauto. done.
Qed.

Section Loop.
Import CreateCOG.

(** A loop body that skips a file whose derived output exists and that
    otherwise changes at most that output and the log, recording a
    translate call unless it raised before making one. *)
Variable body : string -> M Machine unit.
Variable logp : string.
Hypothesis logp_t : Py.last_char logp = Some "t"%char.
Hypothesis body_skip : forall g m,
  path_exists (fs m) (out_name_of g) = true -> body g m = (m, Return tt).
Hypothesis body_run : forall g m m' r,
  path_exists (fs m) (out_name_of g) = false -> body g m = (m', r) ->
  frame_except [resolve (fs m) (out_name_of g); resolve (fs m) logp] (fs m) (fs m')
  /\ ((exists e, r = Raise e /\ trace m' = trace m)
      \/ (exists opts, trace m' = trace m ++ [EvTranslate (out_name_of g) g opts])).

Lemma loop_untouched f l : forall m m' r,
  path_exists (fs m) (out_name_of f) = true ->
  for_ l body m = (m', r) ->
  for_ (filter (fun g => g <> f) l) body m = (m', r)
  /\ (exists evs, trace m' = trace m ++ evs /\ Forall (not_for f) evs)
  /\ files (fs m') !! resolve (fs m) (out_name_of f)
     = files (fs m) !! resolve (fs m) (out_name_of f)
  /\ dirs (fs m') = dirs (fs m) /\ cwd (fs m') = cwd (fs m).
Proof.
  induction l as [|g l IH]; intros m m' r Hex Hrun.
  - injection Hrun as <- <-. split_and!; try done. exists []. by rewrite app_nil_r.
  - rewrite for_cons in Hrun. unfold bind in Hrun.
    destruct (body g m) as [m1 r1] eqn:Hb.
    destruct (path_exists (fs m) (out_name_of g)) eqn:Hg.
    + rewrite (body_skip _ _ Hg) in Hb. injection Hb as <- <-.
      destruct (IH _ _ _ Hex Hrun) as (Hf & He & Hfl & Hd & Hc). split_and!; try done.
      destruct (decide (g = f)) as [->|Hne].
      * by rewrite filter_cons_False by tauto.
      * rewrite filter_cons_True by done. by rewrite for_skip by auto.
    + assert (Hne : resolve (fs m) (out_name_of g) <> resolve (fs m) (out_name_of f)).
      { intros He.
        rewrite (path_exists_resolve _ _ _ (out_name_nonempty g) (out_name_nonempty f) He) in Hg.
        congruence. }
      assert (Hgf : g <> f) by (intros ->; congruence).
      destruct (body_run _ _ _ _ Hg Hb) as (Hfr & Hev).
      assert (Hnotin : resolve (fs m) (out_name_of f)
                       ∉ [resolve (fs m) (out_name_of g); resolve (fs m) logp]).
      { rewrite !elem_of_cons, elem_of_nil. intros [He|[He|[]]]; [congruence|].
        by eapply out_name_not_log. }
      pose proof Hfr as (Hd & Hc & _ & Hfl).
      rewrite filter_cons_True by done. rewrite for_cons. unfold bind. rewrite Hb.
      assert (Hfirst : exists evs, trace m1 = trace m ++ evs /\ Forall (not_for f) evs).
      { destruct Hev as [(e & _ & ->)|(opts & ->)].
        - exists []. by rewrite app_nil_r.
        - eexists. split; [done|]. constructor; [|done]. split; [done|]. congruence. }
      destruct r1 as [[]|e].
      * assert (Hex1 : path_exists (fs m1) (out_name_of f) = true).
        { by rewrite (path_exists_frame _ _ _ _ Hfr Hnotin). }
        destruct (IH _ _ _ Hex1 Hrun) as (Hf' & (evs' & Htr & Hall) & Hfiles' & Hd' & Hc').
        rewrite (resolve_cwd _ _ _ Hc) in Hfiles'.
        destruct Hfirst as (evs & Htr1 & Hall1).
        split_and!; [done| | |congruence..].
        -- exists (evs ++ evs'). split; [|by apply Forall_app].
           by rewrite Htr, Htr1, app_assoc.
        -- by rewrite Hfiles', Hfl.
      * injection Hrun as <- <-. split_and!; auto.
Qed.

Lemma loop_count l : forall m m',
  NoDup (map out_name_of l) ->
  for_ l body m = (m', Return tt) ->
  exists evs,
    trace m' = trace m ++ evs
    /\ Forall (fun ev => is_translate ev = true) evs
    /\ length evs + length (filter (fun g => path_exists (fs m) (out_name_of g) = true) l)
       = length l.
Proof.
  induction l as [|g l IH]; intros m m' Hnd Hrun.
  - injection Hrun as <-. exists []. by rewrite app_nil_r.
  - apply NoDup_cons in Hnd as [Hg_new Hnd].
    rewrite for_cons in Hrun. unfold bind in Hrun.
    destruct (body g m) as [m1 r1] eqn:Hb.
    destruct (path_exists (fs m) (out_name_of g)) eqn:Hg.
    + rewrite (body_skip _ _ Hg) in Hb. injection Hb as <- <-.
      destruct (IH _ _ Hnd Hrun) as (evs & Htr & Hall & Hlen).
      exists evs. split_and!; [done..|].
      rewrite filter_cons_True by done. simpl. lia.
    + destruct (body_run _ _ _ _ Hg Hb) as (Hfr & Hev).
      destruct r1 as [[]|e]; [|done].
      destruct Hev as [(e & ? & _)|(opts & Htr1)]; [done|].
      destruct (IH _ _ Hnd Hrun) as (evs & Htr & Hall & Hlen).
      exists (EvTranslate (out_name_of g) g opts :: evs). split_and!.
      * by rewrite Htr, Htr1, <- app_assoc.
      * by constructor.
      * rewrite filter_cons_False by (rewrite Hg; done).
        assert (Hsame : filter (fun g' => path_exists (fs m1) (out_name_of g') = true) l
                        = filter (fun g' => path_exists (fs m) (out_name_of g') = true) l).
        { apply filter_ext_in. intros g' Hg'.
          rewrite (path_exists_frame _ _ _ _ Hfr); [done|].
          rewrite !elem_of_cons, elem_of_nil. intros [He|[He|[]]].
          - apply resolve_out_name_inj in He. apply Hg_new. rewrite <- He.
            by apply list_elem_of_fmap_2.
          - by eapply out_name_not_log. }
        rewrite Hsame in Hlen. simpl. lia.
Qed.

End Loop.

(** ** The two loop bodies *)

Section Bodies.
Import CreateCOG.
Context {G : Gdal}.

Lemma convert_log_t out_dir : Py.last_char (convert_log out_dir) = Some "t"%char.
Proof. by apply last_char_join. Qed.

Lemma cog_log_t out : Py.last_char (cog_log out) = Some "t"%char.
Proof. by apply last_char_join. Qed.

Lemma epsg_scan_inv tokens m m' r :
  epsg_scan tokens m = (m', r) -> fs m' = fs m /\ trace m' = trace m.
Proof.
  induction tokens as [|t tokens IH]; simpl.
  - by intros [= <- <-].
  - destruct (names_projection t); [|done].
    destruct (PROJECTIONS !! t); by intros [= <- <-].
Qed.

Lemma create_translate_options_inv m m' r :
  create_translate_options m = (m', r) ->
  fs m' = fs m /\ trace m' = trace m /\ exists opts, r = Return opts.
Proof.
  destruct (decide (compress_method (self m) = "JPEG")) as [Hj|Hj].
  - destruct (create_translate_options_jpeg m Hj) as [opts ->].
    intros [= <- <-]. eauto.
  - destruct (create_translate_options_other m Hj) as [opts ->].
    intros [= <- <-]. eauto.
Qed.

Lemma compress_and_tile_one_skip out_dir g m :
  path_exists (fs m) (out_name_of g) = true ->
  compress_and_tile_one out_dir g m = (m, Return tt).
Proof. intros H. unfold compress_and_tile_one, os_path_exists, bind, gets. by rewrite H. Qed.

Lemma compress_and_tile_one_unfold out_dir g m :
  path_exists (fs m) (out_name_of g) = false ->
  compress_and_tile_one out_dir g m
  = (epsg_from_filename g ;;
     opts <- create_translate_options ;;
     logged_translate (convert_log out_dir) (out_name_of g) g opts) m.
Proof.
  intros H. unfold compress_and_tile_one, os_path_exists. unfold bind at 1, gets.
  by rewrite H.
Qed.

Lemma compress_and_tile_one_run out_dir g m m' r :
  path_exists (fs m) (out_name_of g) = false ->
  compress_and_tile_one out_dir g m = (m', r) ->
  frame_except [resolve (fs m) (out_name_of g); resolve (fs m) (convert_log out_dir)]
               (fs m) (fs m')
  /\ ((exists e, r = Raise e /\ trace m' = trace m)
      \/ (exists opts, trace m' = trace m ++ [EvTranslate (out_name_of g) g opts])).
Proof.
  intros Hg. rewrite (compress_and_tile_one_unfold _ _ _ Hg). unfold bind.
  destruct (epsg_from_filename g m) as [m1 r1] eqn:He.
  apply epsg_scan_inv in He as [Hf1 Ht1].
  destruct r1 as [[]|e].
  - destruct (create_translate_options m1) as [m2 r2] eqn:Hc.
    apply create_translate_options_inv in Hc as (Hf2 & Ht2 & opts & ->).
    intros Hl. apply logged_translate_inv in Hl as (_ & Ht & Hfr).
    rewrite Hf2, Hf1 in Hfr. rewrite Ht2, Ht1 in Ht. eauto.
  - intros [= <- <-]. rewrite Hf1, Ht1. split; [apply frame_refl|]. left. eauto.
Qed.

Lemma create_cog_one_skip out trans_opt g m :
  path_exists (fs m) (out_name_of g) = true ->
  create_cog_one out trans_opt g m = (m, Return tt).
Proof. intros H. unfold create_cog_one, os_path_exists, bind, gets. by rewrite H. Qed.

Lemma create_cog_one_unfold out trans_opt g m :
  path_exists (fs m) (out_name_of g) = false ->
  create_cog_one out trans_opt g m
  = logged_translate (cog_log out) (out_name_of g) g trans_opt m.
Proof. intros H. unfold create_cog_one, os_path_exists, bind, gets. by rewrite H. Qed.

Lemma create_cog_one_run out trans_opt g m m' r :
  path_exists (fs m) (out_name_of g) = false ->
  create_cog_one out trans_opt g m = (m', r) ->
  frame_except [resolve (fs m) (out_name_of g); resolve (fs m) (cog_log out)]
               (fs m) (fs m')
  /\ ((exists e, r = Raise e /\ trace m' = trace m)
      \/ (exists opts, trace m' = trace m ++ [EvTranslate (out_name_of g) g opts])).
Proof.
  intros Hg. rewrite (create_cog_one_unfold _ _ _ _ Hg).
  intros Hl. apply logged_translate_inv in Hl as (_ & Ht & Hfr). eauto.
Qed.

End Bodies.

(** ** The converter skips a file whose output exists *)

Section SkipExisting.
Import CreateCOG.
Context {G : Gdal}.

Lemma left_untouched_raise f view m e : left_untouched f view m (m, Raise e) (m, Raise e).
Proof. split_and!; [done| |done]. exists []. by rewrite app_nil_r. Qed.

Lemma fs_mkdir_inv p fs0 fs1 :
  fs_mkdir p fs0 = inr fs1 ->
  files fs1 = files fs0 /\ cwd fs1 = cwd fs0 /\ dirs fs1 = {[ resolve fs0 p ]} ∪ dirs fs0.
Proof. unfold fs_mkdir. intros H. by repeat case_match; simplify_eq. Qed.

Lemma batch_compress_and_tile_untouched l out_dir f m :
  path_exists (entered out_dir (fs m)) (out_name_of f) = true ->
  left_untouched f (entered out_dir (fs m)) m
    (batch_compress_and_tile l out_dir m)
    (batch_compress_and_tile (filter (fun g => g <> f) l) out_dir m).
Proof.
  intros Hex. unfold batch_compress_and_tile, bind, os_chdir, os_call.
  destruct (fs_chdir out_dir (fs m)) as [e|fs1] eqn:Hcd; [apply left_untouched_raise|].
  apply fs_chdir_entered in Hcd as ->.
  set (m1 := with_fs _ m).
  destruct (for_ l (compress_and_tile_one out_dir) m1) as [m' r] eqn:Hrun.
  destruct (loop_untouched (compress_and_tile_one out_dir) (convert_log out_dir)
              (convert_log_t _) (compress_and_tile_one_skip _)
              (compress_and_tile_one_run _) f l m1 m' r Hex Hrun)
    as (Hwithout & Hev & Hfile & _).
  by split_and!.
Qed.

End SkipExisting.

(** ** A failing translate call is logged and the loop goes on *)

Section Isolation.
Import CreateCOG.
Context {G : Gdal}.

Lemma bind_assoc {S A B C} (a : M S A) (b : A -> M S B) (k : B -> M S C) s :
  bind (bind a b) k s = bind a (fun x => bind (b x) k) s.
Proof. unfold bind. destruct (a s) as [s1 [x|e]]; done. Qed.

Lemma resolver_then_options_inv file m m1 r :
  (epsg_from_filename file ;; create_translate_options) m = (m1, r) ->
  fs m1 = fs m /\ trace m1 = trace m.
Proof.
  unfold bind. destruct (epsg_from_filename file m) as [m0 r0] eqn:He.
  apply epsg_scan_inv in He as [Hf Ht]. destruct r0 as [[]|e].
  - intros Hc. apply create_translate_options_inv in Hc as (Hf' & Ht' & _).
    split; congruence.
  - by intros [= <- <-].
Qed.

(** the handler's append after a failed call, when the log can be opened *)
Lemma logged_translate_fail_logged logp dst src opts m msg partial :
  Py.last_char logp = Some "t"%char ->
  resolve (fs m) dst <> resolve (fs m) logp ->
  Translate dst src opts (fs m) = TranslateFail msg partial ->
  can_append (fs m) logp = true ->
  exists m',
    logged_translate logp dst src opts m = (m', Return tt)
    /\ files (fs m') !! resolve (fs m) logp
       = Some (default EmptyString (files (fs m) !! resolve (fs m) logp)
               +:+ (src +:+ tab +:+ msg +:+ newline))
    /\ trace m' = trace m ++ [EvTranslate dst src opts].
Proof.
  intros Ht Hne Hfail Hcan. rewrite (logged_translate_fail _ _ _ _ _ _ _ Hfail).
  set (m3 := match partial with Some _ => _ | None => _ end).
  assert (Hfr : frame_except [resolve (fs m) dst] (fs m) (fs m3)).
  { subst m3. destruct partial; cbn [fs with_fs emit].
    - apply fs_write_frame.
    - apply frame_refl. }
  assert (Htr : trace m3 = trace m ++ [EvTranslate dst src opts]).
  { subst m3. by destruct partial. }
  rewrite <- (can_append_frame _ _ _ _ Hfr) in Hcan.
  destruct (fs_append_ok _ (src +:+ tab +:+ msg +:+ newline) _ Hcan) as [fs' Ha].
  exists (with_fs (fun _ => fs') m3). split_and!.
  - unfold append_file, os_call. by rewrite Ha.
  - apply fs_append_content in Ha. destruct Hfr as (_ & Hc & _ & Hfl).
    rewrite (resolve_cwd _ _ _ Hc) in Ha. cbn [fs with_fs]. rewrite Ha.
    rewrite Hfl; [done|]. rewrite elem_of_cons, elem_of_nil. intros [He|[]]. congruence.
  - done.
Qed.

(** X18: on a file that is not skipped and on which the translate call
    raises, if the error log can be opened for appending from the working
    directory of the loop (the log path is not a directory, lies in an
    existing directory and is not refused by the operating system), then
    the loop body returns normally, the log is its former content followed
    by exactly the line made of the input path, a tab, the error text and a
    newline, one translate call is recorded, and the loop goes on with the
    remaining files.  The converter does so with its log path built from
    the output directory, the assembler with its own built from the COG
    directory. *)
Theorem translate_failure_is_logged file rest m msg partial :
  path_exists (fs m) (out_name_of file) = false ->
  (forall out_dir m1 opts,
     (epsg_from_filename file ;; create_translate_options) m = (m1, Return opts) ->
     Translate (out_name_of file) file opts (fs m1) = TranslateFail msg partial ->
     can_append (fs m) (convert_log out_dir) = true ->
     exists m',
       compress_and_tile_one out_dir file m = (m', Return tt)
       /\ files (fs m') !! resolve (fs m) (convert_log out_dir)
          = Some (default EmptyString (files (fs m) !! resolve (fs m) (convert_log out_dir))
                  +:+ (file +:+ tab +:+ msg +:+ newline))
       /\ trace m' = trace m ++ [EvTranslate (out_name_of file) file opts]
       /\ for_ (file :: rest) (compress_and_tile_one out_dir) m
          = for_ rest (compress_and_tile_one out_dir) m')
  /\ (forall out trans_opt,
        Translate (out_name_of file) file trans_opt (fs m) = TranslateFail msg partial ->
        can_append (fs m) (cog_log out) = true ->
        exists m',
          create_cog_one out trans_opt file m = (m', Return tt)
          /\ files (fs m') !! resolve (fs m) (cog_log out)
             = Some (default EmptyString (files (fs m) !! resolve (fs m) (cog_log out))
                     +:+ (file +:+ tab +:+ msg +:+ newline))
          /\ trace m' = trace m ++ [EvTranslate (out_name_of file) file trans_opt]
          /\ for_ (file :: rest) (create_cog_one out trans_opt) m
             = for_ rest (create_cog_one out trans_opt) m').
Proof.
  intros Hnew. split.
  - intros out_dir m1 opts Hpre Hfail Hcan.
    pose proof (resolver_then_options_inv _ _ _ _ Hpre) as [Hf1 Ht1].
    destruct (logged_translate_fail_logged (convert_log out_dir) (out_name_of file)
                file opts m1 msg partial) as (m' & Hrun & Hlog & Htr).
    { apply convert_log_t. }
    { apply out_name_not_log, convert_log_t. }
    { done. }
    { by rewrite Hf1. }
    rewrite Hf1 in Hlog. rewrite Ht1 in Htr.
    assert (Hbody : compress_and_tile_one out_dir file m = (m', Return tt)).
    { rewrite (compress_and_tile_one_unfold _ _ _ Hnew).
      rewrite <- (bind_assoc (epsg_from_filename file) (fun _ => create_translate_options)).
      by rewrite (bind_return _ _ _ _ _ Hpre). }
    exists m'. split_and!; [done..|]. by rewrite for_cons, (bind_return _ _ _ _ _ Hbody).
  - intros out trans_opt Hfail Hcan.
    destruct (logged_translate_fail_logged (cog_log out) (out_name_of file)
                file trans_opt m msg partial) as (m' & Hrun & Hlog & Htr).
    { apply cog_log_t. }
    { apply out_name_not_log, cog_log_t. }
    { done. }
    { done. }
    assert (Hbody : create_cog_one out trans_opt file m = (m', Return tt)).
    { by rewrite (create_cog_one_unfold _ _ _ _ Hnew). }
    exists m'. split_and!; [done..|]. by rewrite for_cons, (bind_return _ _ _ _ _ Hbody).
Qed.

End Isolation.

Lemma translate_failure_is_logged_witness :
  (exists m',
     @CreateCOG.compress_and_tile_one (Stub.gdal ["/in/a.dem"]) "/out" "/in/a.dem" Stub.m_in_out
     = (m', Return tt)
     /\ files (CreateCOG.fs m') !! "/out/compression_and_tiling_errors.txt"
        = Some ("/in/a.dem" +:+ tab +:+ "cannot open /in/a.dem" +:+ newline)
     /\ Stub.translate_sources (CreateCOG.trace m') = ["/in/a.dem"]
     /\ for_ ["/in/a.dem"; "/in/b.dem"]
          (@CreateCOG.compress_and_tile_one (Stub.gdal ["/in/a.dem"]) "/out") Stub.m_in_out
        = for_ ["/in/b.dem"]
            (@CreateCOG.compress_and_tile_one (Stub.gdal ["/in/a.dem"]) "/out") m')
  /\ (exists m',
        @CreateCOG.create_cog_one (Stub.gdal ["/out/a.tif"]) "/out/COG"
          (TranslateOptions_of []) "/out/a.tif" Stub.m_in_cog
        = (m', Return tt)
        /\ files (CreateCOG.fs m') !! "/out/COG/COG_creation_errors.txt"
           = Some ("/out/a.tif" +:+ tab +:+ "cannot open /out/a.tif" +:+ newline)
        /\ Stub.translate_sources (CreateCOG.trace m') = ["/out/a.tif"]
        /\ for_ ["/out/a.tif"; "/out/b.tif"]
             (@CreateCOG.create_cog_one (Stub.gdal ["/out/a.tif"]) "/out/COG"
                (TranslateOptions_of [])) Stub.m_in_cog
           = for_ ["/out/b.tif"]
               (@CreateCOG.create_cog_one (Stub.gdal ["/out/a.tif"]) "/out/COG"
                  (TranslateOptions_of [])) m').
Proof.
  split.
  - destruct (@translate_failure_is_logged (Stub.gdal ["/in/a.dem"]) "/in/a.dem"
                ["/in/b.dem"] Stub.m_in_out "cannot open /in/a.dem" None eq_refl)
      as [Hconv _].
    destruct (Hconv "/out" _ _ eq_refl eq_refl eq_refl) as (m' & Hb & Hl & Ht & Hgo).
    exists m'. split_and!; [exact Hb| | |exact Hgo].
    + etrans; [exact Hl | vm_compute; reflexivity].
    + rewrite Ht. vm_compute; reflexivity.
  - destruct (@translate_failure_is_logged (Stub.gdal ["/out/a.tif"]) "/out/a.tif"
                ["/out/b.tif"] Stub.m_in_cog "cannot open /out/a.tif" None eq_refl)
      as [_ Hcog].
    destruct (Hcog "/out/COG" (TranslateOptions_of []) eq_refl eq_refl)
      as (m' & Hb & Hl & Ht & Hgo).
    exists m'. split_and!; [exact Hb| | |exact Hgo].
    + etrans; [exact Hl | vm_compute; reflexivity].
    + rewrite Ht. vm_compute; reflexivity.
Defined.

(** C2, what the code does: the handler builds the path of the log from
    the output directory as it was given, after the working directory has
    become that directory.  With the output directory given by a relative
    path, the log path points into a directory that does not exist: the
    translate call on the first file raises, opening the log raises
    [FileNotFoundError] in turn, no line is written anywhere, and the
    second file is never translated.  The assembler does the same with
    its own log.  The same run with the directory given by its absolute
    path returns, with the line in the log and the second file
    translated. *)
Theorem translate_failure_relative_dir_not_logged :
  (forall dst opts fs0, @Translate (Stub.gdal ["/in/a.dem"]) dst "/in/a.dem" opts fs0
                        = TranslateFail "cannot open /in/a.dem" None)
  /\ ((@CreateCOG.batch_compress_and_tile (Stub.gdal ["/in/a.dem"])
         ["/in/a.dem"; "/in/b.dem"] "out" Stub.m_work).2
      = Raise (enoent "out/compression_and_tiling_errors.txt")
      /\ files (CreateCOG.fs (@CreateCOG.batch_compress_and_tile (Stub.gdal ["/in/a.dem"])
                                ["/in/a.dem"; "/in/b.dem"] "out" Stub.m_work).1)
         = files (CreateCOG.fs Stub.m_work)
      /\ Stub.translate_sources
           (CreateCOG.trace (@CreateCOG.batch_compress_and_tile (Stub.gdal ["/in/a.dem"])
                               ["/in/a.dem"; "/in/b.dem"] "out" Stub.m_work).1)
         = ["/in/a.dem"])
  /\ ((@CreateCOG.batch_create_cog (Stub.gdal ["/work/out/a.tif"])
         ["/work/out/a.tif"; "/work/out/b.tif"] "out" Stub.m_work_tiled).2
      = Raise (enoent "out/COG/COG_creation_errors.txt")
      /\ files (CreateCOG.fs (@CreateCOG.batch_create_cog (Stub.gdal ["/work/out/a.tif"])
                                ["/work/out/a.tif"; "/work/out/b.tif"] "out" Stub.m_work_tiled).1)
         = files (CreateCOG.fs Stub.m_work_tiled)
      /\ Stub.translate_sources
           (CreateCOG.trace (@CreateCOG.batch_create_cog (Stub.gdal ["/work/out/a.tif"])
                               ["/work/out/a.tif"; "/work/out/b.tif"] "out" Stub.m_work_tiled).1)
         = ["/work/out/a.tif"])
  /\ ((@CreateCOG.batch_compress_and_tile (Stub.gdal ["/in/a.dem"])
         ["/in/a.dem"; "/in/b.dem"] "/work/out" Stub.m_work).2
      = Return tt
      /\ files (CreateCOG.fs (@CreateCOG.batch_compress_and_tile (Stub.gdal ["/in/a.dem"])
                                ["/in/a.dem"; "/in/b.dem"] "/work/out" Stub.m_work).1)
           !! "/work/out/compression_and_tiling_errors.txt"
         = Some ("/in/a.dem" +:+ tab +:+ "cannot open /in/a.dem" +:+ newline)
      /\ Stub.translate_sources
           (CreateCOG.trace (@CreateCOG.batch_compress_and_tile (Stub.gdal ["/in/a.dem"])
                               ["/in/a.dem"; "/in/b.dem"] "/work/out" Stub.m_work).1)
         = ["/in/a.dem"; "/in/b.dem"]).
Proof. split_and!; [done | vm_compute; reflexivity ..]. Qed.

(** ** The number of translate calls *)

Section Counting.
Import CreateCOG.
Context {G : Gdal}.

(** C5 (as amended): when the batch converter returns without raising,
    over input files with pairwise distinct derived output names, the calls
    it records are translate calls, and their number is the number of input
    files less the number of those whose derived output name existed in
    the output directory when the run began. *)
Theorem translate_call_count l out_dir m m' :
  NoDup (map out_name_of l) ->
  batch_compress_and_tile l out_dir m = (m', Return tt) ->
  exists evs,
    trace m' = trace m ++ evs
    /\ Forall (fun ev => is_translate ev = true) evs
    /\ length evs
       = length l
         - length (filter (fun g => path_exists (entered out_dir (fs m)) (out_name_of g) = true) l).
Proof.
  intros Hnd. unfold batch_compress_and_tile, bind, os_chdir, os_call.
  destruct (fs_chdir out_dir (fs m)) as [e|fs1] eqn:Hcd; [done|].
  apply fs_chdir_entered in Hcd as ->. intros Hrun.
  destruct (loop_count (compress_and_tile_one out_dir) (convert_log out_dir)
              (convert_log_t _) (compress_and_tile_one_skip _)
              (compress_and_tile_one_run _) l _ m' Hnd Hrun)
    as (evs & Htr & Hall & Hlen).
  exists evs. split_and!; [done..|]. cbn [fs with_fs] in Hlen. lia.
Qed.

(** C10: when the COG subdirectory of the output directory exists, the
    assembler raises [FileExistsError] from the directory creation and
    leaves the state as it was: nothing is translated, written or logged,
    whatever the list of files. *)
Theorem batch_create_cog_rerun l out_dir m :
  is_dir (fs m) (Py.join out_dir "COG") = true ->
  batch_create_cog l out_dir m = (m, Raise (eexist (Py.join out_dir "COG"))).
Proof.
  intros Hd. unfold batch_create_cog, bind, gets, os_mkdir, os_call, fs_mkdir.
  cbv zeta. cbn [fs]. rewrite Hd.
  rewrite bool_decide_eq_false_2; [done|].
  eapply last_char_nonempty, last_char_join. reflexivity.
Qed.

End Counting.

Lemma translate_call_count_witness :
  exists evs,
    CreateCOG.trace (@CreateCOG.batch_compress_and_tile (Stub.gdal [])
                       ["/in/x.dem"; "/in/y.dem"] "/out" Stub.m_rerun).1
    = CreateCOG.trace Stub.m_rerun ++ evs
    /\ Forall (fun ev => is_translate ev = true) evs
    /\ length evs = 2 - 1.
Proof.
  destruct (@translate_call_count (Stub.gdal []) ["/in/x.dem"; "/in/y.dem"] "/out"
              Stub.m_rerun
              (@CreateCOG.batch_compress_and_tile (Stub.gdal [])
                 ["/in/x.dem"; "/in/y.dem"] "/out" Stub.m_rerun).1)
    as (evs & Htr & Hall & Hlen).
  - by_decide.
  - vm_compute; reflexivity.
  - exists evs. split_and!; [exact Htr | exact Hall |].
    rewrite Hlen. vm_compute; reflexivity.
Defined.

(** C5 as stated fails twice.  Two inputs of one basename, neither
    converted yet: the first call creates the output the second would
    have, so one call is made, not two.  And an input whose name makes the
    resolver raise stops the run before any call, though none of the two
    inputs has an output. *)
Lemma translate_call_count_counterexample :
  (filter (fun g => path_exists (entered "/out" (CreateCOG.fs Stub.m_twins))
                      (CreateCOG.out_name_of g) = true) ["/in/x.asc"; "/in/x.dem"] = []
   /\ (@CreateCOG.batch_compress_and_tile (Stub.gdal [])
         ["/in/x.asc"; "/in/x.dem"] "/out" Stub.m_twins).2 = Return tt
   /\ Stub.translate_sources
        (CreateCOG.trace (@CreateCOG.batch_compress_and_tile (Stub.gdal [])
                            ["/in/x.asc"; "/in/x.dem"] "/out" Stub.m_twins).1)
      = ["/in/x.asc"])
  /\ (filter (fun g => path_exists (entered "/out" (CreateCOG.fs Stub.m_zone))
                         (CreateCOG.out_name_of g) = true) ["/in/a_utm12.dem"; "/in/b.dem"] = []
      /\ NoDup (map CreateCOG.out_name_of ["/in/a_utm12.dem"; "/in/b.dem"])
      /\ (@CreateCOG.batch_compress_and_tile (Stub.gdal [])
            ["/in/a_utm12.dem"; "/in/b.dem"] "/out" Stub.m_zone).2
         = Raise (Exn KeyError "'utm12'")
      /\ Stub.translate_sources
           (CreateCOG.trace (@CreateCOG.batch_compress_and_tile (Stub.gdal [])
                               ["/in/a_utm12.dem"; "/in/b.dem"] "/out" Stub.m_zone).1)
         = []).
Proof.
  split_and!; try (vm_compute; reflexivity). by_decide.
Qed.

Lemma batch_create_cog_rerun_witness :
  @CreateCOG.batch_create_cog (Stub.gdal []) ["/out/x.tif"] "/out" Stub.m_rerun
  = (Stub.m_rerun, Raise (eexist "/out/COG")).
Proof.
  apply (@batch_create_cog_rerun (Stub.gdal []) ["/out/x.tif"] "/out" Stub.m_rerun).
  vm_compute; reflexivity.
Defined.

(** ** The overview builder *)

Section Overviews.
Import CreateCOG.
Context {G : Gdal}.

Lemma create_overviews_one_inv f m m1 r :
  create_overviews_one f m = (m1, r) ->
  self m1 = self m
  /\ match r with
     | Return _ =>
         trace m1 = trace m ++ overview_script (overview_levels (self m)) [f]
     | Raise e =>
         exn_cls e = RuntimeError
         /\ (trace m1 = trace m ++ [EvOpen f]
             \/ trace m1 = trace m ++ [EvOpen f;
                                       EvBuildOverviews f "CUBIC" (overview_levels (self m))])
     end.
Proof.
  unfold create_overviews_one, bind, gdal_Open, gets, dataset_BuildOverviews,
    dataset_close, modify.
  destruct (Open f (fs m)) as [x y c|msg]; cbn [fs emit self ds_path].
  - destruct (BuildOverviews _ _ _ _) as [files' [msg|]];
      intros [= <- <-]; cbn [self with_fs emit trace exn_cls];
      rewrite <- ?app_assoc; auto.
  - intros [= <- <-]. cbn. auto.
Qed.

Lemma create_overviews_one_open_fail f m msg :
  Open f (fs m) = OpenFail msg ->
  create_overviews_one f m = (emit (EvOpen f) m, Raise (Exn RuntimeError msg)).
Proof. intros H. unfold create_overviews_one, bind, gdal_Open. by rewrite H. Qed.

Lemma create_overviews_one_built f m x y c files' failure :
  Open f (fs m) = Opened x y c ->
  BuildOverviews (mkDataset f x y c) "CUBIC" (overview_levels (self m)) (fs m)
  = (files', failure) ->
  create_overviews_one f m
  = match failure with
    | Some msg =>
        (overviews_built f (overview_levels (self m)) files' m, Raise (Exn RuntimeError msg))
    | None =>
        (emit (EvClose f) (overviews_built f (overview_levels (self m)) files' m), Return tt)
    end.
Proof.
  intros Hopen Hbuild.
  unfold create_overviews_one, bind, gdal_Open, gets, dataset_BuildOverviews,
    dataset_close, modify.
  rewrite Hopen. cbn [fs emit self ds_path]. rewrite Hbuild.
  destruct failure; unfold overviews_built, emit, with_fs;
    cbn [self fs trace ds_path]; by rewrite <- ?app_assoc.
Qed.

Lemma for_overviews_self l : forall m m1 r,
  for_ l create_overviews_one m = (m1, r) -> self m1 = self m.
Proof.
  induction l as [|f l IH]; intros m m1 r.
  - by intros [= <- <-].
  - rewrite for_cons. unfold bind.
    destruct (create_overviews_one f m) as [m0 r0] eqn:Hone.
    apply create_overviews_one_inv in Hone as [Hself _].
    destruct r0 as [[]|e].
    + intros Hrun. apply IH in Hrun. congruence.
    + by intros [= <- <-].
Qed.

Lemma batch_create_overviews_trace l : forall m m' r,
  overview_levels (self m) = [2%N; 4%N] ->
  for_ l create_overviews_one m = (m', r) ->
  match r with
  | Return _ => trace m' = trace m ++ overview_script [2%N; 4%N] l
  | Raise e =>
      exn_cls e = RuntimeError
      /\ exists before f after,
          l = before ++ f :: after
          /\ (trace m' = trace m ++ overview_script [2%N; 4%N] before ++ [EvOpen f]
              \/ trace m' = trace m ++ overview_script [2%N; 4%N] before
                            ++ [EvOpen f; EvBuildOverviews f "CUBIC" [2%N; 4%N]])
  end.
Proof.
  induction l as [|f l IH]; intros m m' r Hlev.
  - intros [= <- <-]. by rewrite app_nil_r.
  - rewrite for_cons. unfold bind.
    destruct (create_overviews_one f m) as [m1 r1] eqn:Hone.
    apply create_overviews_one_inv in Hone as [Hself Hone]. rewrite Hlev in Hone.
    destruct r1 as [[]|e].
    + intros Hrun. apply IH in Hrun; [|by rewrite Hself].
      destruct r as [[]|e].
      * rewrite Hrun, Hone, <- app_assoc. done.
      * destruct Hrun as (Hcls & before & g & after & -> & Htr). split; [done|].
        exists (f :: before), g, after. split; [done|].
        rewrite Hone, <- !app_assoc in Htr. apply Htr.
    + intros [= <- <-]. destruct Hone as [Hcls Htr]. split; [done|].
      exists [], f, l. split; [done|]. apply Htr.
Qed.

(** C7: the overview builder of an instance whose levels are [2, 4], as
    [__init__] sets them, goes through what it is given in order.  Take
    any file [f] of the list, reached in the state [m1] after the files
    before it were done.  If the library fails to open [f], the whole call
    raises that failure as a [RuntimeError], and the open is the last call
    recorded.  If it opens [f] and then fails to build the overviews,
    asked for at the factors 2 and 4 with the CUBIC kernel, the whole call
    raises that failure, the files are as the library left them, the
    raster is not closed, and no later file is opened.  If the build
    succeeds, the raster is closed and the call goes on with the files
    after [f].  In all, a call that returns has recorded open, build and
    close for each file in order; a call that raises has recorded them for
    the files before the failing one and ends with that file's open, or
    open and build. *)
Theorem batch_create_overviews_propagates list_of_files m :
  overview_levels (self m) = [2%N; 4%N] ->
  (forall before f after m1,
     iter list_of_files = before ++ f :: after ->
     for_ before create_overviews_one m = (m1, Return tt) ->
     (forall msg,
        Open f (fs m1) = OpenFail msg ->
        batch_create_overviews list_of_files m
        = (emit (EvOpen f) m1, Raise (Exn RuntimeError msg)))
     /\ (forall x y c files' msg,
           Open f (fs m1) = Opened x y c ->
           BuildOverviews (mkDataset f x y c) "CUBIC" [2%N; 4%N] (fs m1) = (files', Some msg) ->
           batch_create_overviews list_of_files m
           = (overviews_built f [2%N; 4%N] files' m1, Raise (Exn RuntimeError msg)))
     /\ (forall x y c files',
           Open f (fs m1) = Opened x y c ->
           BuildOverviews (mkDataset f x y c) "CUBIC" [2%N; 4%N] (fs m1) = (files', None) ->
           batch_create_overviews list_of_files m
           = for_ after create_overviews_one
               (emit (EvClose f) (overviews_built f [2%N; 4%N] files' m1))))
  /\ (forall m' r,
        batch_create_overviews list_of_files m = (m', r) ->
        match r with
        | Return _ => trace m' = trace m ++ overview_script [2%N; 4%N] (iter list_of_files)
        | Raise e =>
            exn_cls e = RuntimeError
            /\ exists before f after,
                iter list_of_files = before ++ f :: after
                /\ (trace m' = trace m ++ overview_script [2%N; 4%N] before ++ [EvOpen f]
                    \/ trace m' = trace m ++ overview_script [2%N; 4%N] before
                                  ++ [EvOpen f; EvBuildOverviews f "CUBIC" [2%N; 4%N]])
        end).
Proof.
  intros Hlev. split.
  - intros before f after m1 Hl Hpre.
    assert (Hlev1 : overview_levels (self m1) = [2%N; 4%N]).
    { by rewrite (for_overviews_self _ _ _ _ Hpre). }
    assert (Hgo : batch_create_overviews list_of_files m
                  = for_ (f :: after) create_overviews_one m1).
    { unfold batch_create_overviews. by rewrite Hl, for_app, Hpre. }
    rewrite Hgo, for_cons. split_and!.
    + intros msg Hopen. apply bind_raise. by apply create_overviews_one_open_fail.
    + intros x y c files' msg Hopen Hbuild. apply bind_raise.
      rewrite <- Hlev1 in Hbuild |- *.
      by rewrite (create_overviews_one_built _ _ _ _ _ _ _ Hopen Hbuild).
    + intros x y c files' Hopen Hbuild.
      rewrite <- Hlev1 in Hbuild |- *.
      unfold bind. by rewrite (create_overviews_one_built _ _ _ _ _ _ _ Hopen Hbuild).
  - intros m' r. by apply batch_create_overviews_trace.
Qed.

End Overviews.

Lemma batch_create_overviews_propagates_witness :
  (@CreateCOG.batch_create_overviews (Stub.gdal_ovr ["/out/b.tif"])
     (IterList ["/out/a.tif"; "/out/b.tif"; "/out/c.tif"]) Stub.m_in_cog).2
  = Raise (Exn RuntimeError "cannot build /out/b.tif")
  /\ CreateCOG.trace
       (@CreateCOG.batch_create_overviews (Stub.gdal_ovr ["/out/b.tif"])
          (IterList ["/out/a.tif"; "/out/b.tif"; "/out/c.tif"]) Stub.m_in_cog).1
     = overview_script [2%N; 4%N] ["/out/a.tif"]
       ++ [EvOpen "/out/b.tif"; EvBuildOverviews "/out/b.tif" "CUBIC" [2%N; 4%N]]
  /\ (@CreateCOG.batch_create_overviews (Stub.gdal ["/out/b.tif"])
        (IterList ["/out/a.tif"; "/out/b.tif"; "/out/c.tif"]) Stub.m_in_cog).2
     = Raise (Exn RuntimeError "cannot open /out/b.tif").
Proof.
  destruct (@batch_create_overviews_propagates (Stub.gdal_ovr ["/out/b.tif"])
              (IterList ["/out/a.tif"; "/out/b.tif"; "/out/c.tif"]) Stub.m_in_cog eq_refl)
    as [Hat _].
  destruct (Hat ["/out/a.tif"] "/out/b.tif" ["/out/c.tif"] _ eq_refl (surjective_pairing _))
    as (_ & Hbuild & _).
  destruct (@batch_create_overviews_propagates (Stub.gdal ["/out/b.tif"])
              (IterList ["/out/a.tif"; "/out/b.tif"; "/out/c.tif"]) Stub.m_in_cog eq_refl)
    as [Hat' _].
  destruct (Hat' ["/out/a.tif"] "/out/b.tif" ["/out/c.tif"] _ eq_refl (surjective_pairing _))
    as (Hopen & _).
  split_and!.
  - erewrite Hbuild; [reflexivity| vm_compute; reflexivity ..].
  - erewrite Hbuild; [vm_compute; reflexivity | vm_compute; reflexivity ..].
  - erewrite Hopen; [reflexivity | vm_compute; reflexivity].
Defined.

(** ** The driver *)

Section Driver.
Import CreateCOG.
Context {G : Gdal}.

Lemma emits_silent {A} P (c : M Machine A) :
  (forall m m' r, c m = (m', r) -> trace m' = trace m) -> emits P c.
Proof. intros H m m' r Hc. exists []. rewrite app_nil_r. eauto. Qed.

Lemma emits_bind {A B} P (a : M Machine A) (k : A -> M Machine B) :
  emits P a -> (forall x, emits P (k x)) -> emits P (bind a k).
Proof.
  intros Ha Hk m m' r. unfold bind. destruct (a m) as [m1 [x|e]] eqn:Hm.
  - intros Hr. destruct (Ha _ _ _ Hm) as (evs1 & E1 & H1).
    destruct (Hk _ _ _ _ Hr) as (evs2 & E2 & H2).
    exists (evs1 ++ evs2). rewrite E2, E1, app_assoc. split; [done|]. by apply Forall_app.
  - intros [= <- <-]. eauto.
Qed.

Lemma emits_for {A} P (l : list A) (body : A -> M Machine unit) :
  (forall x, x ∈ l -> emits P (body x)) -> emits P (for_ l body).
Proof.
  induction l as [|x l IH]; intros Hb.
  - apply emits_silent. by intros m m' r [= <- <-].
  - change (for_ (x :: l) body) with (bind (body x) (fun _ => for_ l body)).
    apply emits_bind; [apply Hb; by left|]. intros _. apply IH.
    intros y Hy. apply Hb. by right.
Qed.

Lemma emits_gets {A} P (f : Machine -> A) : emits P (gets f).
Proof. apply emits_silent. by intros m m' r [= <- <-]. Qed.

Lemma emits_os_call P op : emits P (os_call op).
Proof.
  apply emits_silent. intros m m' r. unfold os_call.
  destruct (op (fs m)); by intros [= <- <-].
Qed.

Lemma emits_weaken {A} (P Q : event -> Prop) (c : M Machine A) :
  (forall ev, P ev -> Q ev) -> emits P c -> emits Q c.
Proof.
  intros HPQ Hc m m' r Hr. destruct (Hc _ _ _ Hr) as (evs & -> & Hall).
  exists evs. split; [done|]. eapply Forall_impl; eauto.
Qed.

Lemma emits_logged_translate logp dst src opts :
  emits (fun ev => is_translate ev = true) (logged_translate logp dst src opts).
Proof.
  intros m m' r Hr. apply logged_translate_inv in Hr as (_ & -> & _).
  eexists. split; [done|]. by repeat constructor.
Qed.

Lemma emits_compress_and_tile_one out_dir file :
  emits (fun ev => is_translate ev = true) (compress_and_tile_one out_dir file).
Proof.
  intros m m' r. destruct (path_exists (fs m) (out_name_of file)) eqn:Hex.
  - rewrite (compress_and_tile_one_skip _ _ _ Hex). intros [= <- <-].
    exists []. by rewrite app_nil_r.
  - intros Hr. apply (compress_and_tile_one_run _ _ _ _ _ Hex) in Hr as [_ Hev].
    destruct Hev as [(e & _ & ->)|(opts & ->)].
    + exists []. by rewrite app_nil_r.
    + eexists. split; [done|]. by repeat constructor.
Qed.

Lemma emits_create_cog_one out trans_opt file :
  emits (fun ev => is_translate ev = true) (create_cog_one out trans_opt file).
Proof.
  intros m m' r. destruct (path_exists (fs m) (out_name_of file)) eqn:Hex.
  - rewrite (create_cog_one_skip _ _ _ _ Hex). intros [= <- <-].
    exists []. by rewrite app_nil_r.
  - rewrite (create_cog_one_unfold _ _ _ _ Hex). apply emits_logged_translate.
Qed.

Lemma emits_create_overviews_one s f :
  f ∈ chars s -> emits (on_chars_of s) (create_overviews_one f).
Proof.
  intros Hf m m' r Hr. apply create_overviews_one_inv in Hr as [_ Hr].
  destruct r as [[]|e].
  - eexists. split; [done|]. by repeat constructor.
  - destruct Hr as [_ [->| ->]]; eexists; (split; [done|]); by repeat constructor.
Qed.

Lemma translate_on_chars s ev : is_translate ev = true -> on_chars_of s ev.
Proof. by destruct ev. Qed.

(** C6, what the code does: whatever the two directories and the state
    of the file system, every open, build and close the driver's run
    records is on a path made of a single character of the output
    directory's name, because the overview builder is handed that name and
    goes through its characters; the files the convert stage wrote are not
    among them.  On a run of the stub library over one input, the convert
    stage translates it, the overview builder then opens the path made of
    the first character of the output directory, which fails, and the run
    ends there. *)
Theorem run_cog_conversion_overviews_on_characters :
  (forall idir odir, emits (on_chars_of odir) (run_cog_conversion idir odir))
  /\ (let run := @run_cog_conversion (Stub.gdal []) "/in" "/out"
                   (Stub.machine [("/in/a_utm10.dem", "dem")] ["/"; "/in"; "/out"] "/") in
      Stub.translate_sources (trace run.1) = ["/in/a_utm10.dem"]
      /\ is_file (fs run.1) "/out/a_utm10.tif" = true
      /\ opened (trace run.1) = ["/"]
      /\ run.2 = Raise (Exn RuntimeError "cannot open /")).
Proof.
  split.
  - intros idir odir. unfold run_cog_conversion.
    apply emits_bind; [apply emits_gets|]. intros flist.
    apply emits_bind.
    { unfold batch_compress_and_tile. apply emits_bind; [apply emits_os_call|].
      intros _. apply emits_for. intros f _.
      eapply emits_weaken, emits_compress_and_tile_one. apply translate_on_chars. }
    intros _. apply emits_bind.
    { unfold batch_create_overviews. apply emits_for. intros f Hf.
      by apply emits_create_overviews_one. }
    intros _. apply emits_bind; [apply emits_gets|]. intros l.
    apply emits_bind.
    { unfold batch_create_cog. apply emits_bind; [apply emits_gets|]. intros o.
      cbv zeta. apply emits_bind; [apply emits_os_call|].
      intros _. apply emits_bind; [apply emits_os_call|].
      intros _. apply emits_for. intros f _.
      eapply emits_weaken, emits_create_cog_one. apply translate_on_chars. }
    intros _. unfold remove_intermediate_tif.
    apply emits_bind; [apply emits_gets|]. intros l'.
    apply emits_for. intros f _. apply emits_os_call.
  - vm_compute. by split_and!.
Qed.

End Driver.

Lemma chars_length s f : f ∈ chars s -> String.length f = 1.
Proof.
  induction s as [|a s IH]; simpl.
  - by intros ?%elem_of_nil.
  - intros [->|?]%elem_of_cons; auto.
Qed.

(** ** The corrupt-JPEG scanner *)

Section Scanner.
Import CheckCorruptJpg.
Context {G : Gdal}.

Lemma os_stat_size_inv file m m1 r : os_stat_size file m = (m1, r) -> m1 = m.
Proof. unfold os_stat_size. repeat case_match; by intros [= <- <-]. Qed.

Lemma inspect_inv file m m1 r :
  inspect file m = (m1, r) -> global_e m1 = global_e m /\ fs m1 = fs m.
Proof.
  unfold inspect, bind, gdal_Open, print, modify.
  destruct (Open file (fs m)) as [x y c|msg].
  - destruct (os_stat_size file (emit (EvOpen file) m)) as [m2 r2] eqn:Hs.
    apply os_stat_size_inv in Hs as ->.
    destruct r2; intros [= <- <-]; by cbn.
  - intros [= <- <-]; by cbn.
Qed.

Lemma scan_one_inv file m m1 r :
  global_e m = None ->
  scan_one file m = (m1, r) ->
  global_e m1 = None /\ fs m1 = fs m /\ (forall e, r = Raise e -> e = name_error_e).
Proof.
  intros He. unfold scan_one, try_except.
  destruct (inspect file m) as [m0 r0] eqn:Hi.
  apply inspect_inv in Hi as [He0 Hf0]. rewrite He in He0.
  destruct r0 as [[]|exc].
  - intros [= <- <-]. by split_and!.
  - unfold bind, load_e. rewrite He0. intros [= <- <-]. split_and!; [done..|].
    by intros e [= <-].
Qed.

(** C9, what the code does: while the module-level name [e] is unbound,
    as it is when the script starts, a file that fails to open ends the
    loop with [NameError], raised when the [except] clause evaluates its
    tuple: the state is the one after the open call, no row is written,
    and the remaining files are not scanned.  Over any list, the loop
    never binds [e], never changes a file, and raises nothing but that
    [NameError]. *)
Theorem scan_open_failure_raises_NameError m :
  global_e m = None ->
  (forall file rest msg,
     Open file (fs m) = OpenFail msg ->
     scan (file :: rest) m = (emit (EvOpen file) m, Raise name_error_e))
  /\ (forall lst m' r,
        for_ lst scan_one m = (m', r) ->
        global_e m' = None /\ fs m' = fs m /\ (forall e, r = Raise e -> e = name_error_e)).
Proof.
  intros He. split.
  - intros file rest msg Hopen.
    unfold scan. rewrite (bind_raise _ _ _ (emit (EvOpen file) m) name_error_e); [done|].
    rewrite for_cons. apply bind_raise.
    unfold scan_one, try_except, inspect, bind, gdal_Open, load_e.
    rewrite Hopen. cbn [global_e emit]. by rewrite He.
  - intros lst. revert m He. induction lst as [|f lst IH]; intros m He m' r.
    + by intros [= <- <-].
    + rewrite for_cons. unfold bind.
      destruct (scan_one f m) as [m1 r1] eqn:H1.
      apply (scan_one_inv _ _ _ _ He) in H1 as (He1 & Hf1 & Hr1).
      destruct r1 as [[]|e].
      * intros Hrun. apply (IH _ He1) in Hrun as (? & ? & ?). split_and!; [done| |done].
        congruence.
      * intros [= <- <-]. by split_and!.
Qed.

End Scanner.

Lemma scan_open_failure_raises_NameError_witness :
  @CheckCorruptJpg.scan (Stub.gdal ["a.jpg"]) ["a.jpg"; "b.jpg"]
    (CheckCorruptJpg.start (Stub.disk [("/scan/a.jpg", "x"); ("/scan/b.jpg", "jpeg")]
                                      ["/"; "/scan"] "/scan"))
  = (CheckCorruptJpg.emit (EvOpen "a.jpg")
       (CheckCorruptJpg.start (Stub.disk [("/scan/a.jpg", "x"); ("/scan/b.jpg", "jpeg")]
                                         ["/"; "/scan"] "/scan")),
     Raise name_error_e).
Proof.
  refine (proj1 (@scan_open_failure_raises_NameError (Stub.gdal ["a.jpg"])
                   (CheckCorruptJpg.start (Stub.disk [("/scan/a.jpg", "x"); ("/scan/b.jpg", "jpeg")]
                                                     ["/"; "/scan"] "/scan")) eq_refl)
                "a.jpg" ["b.jpg"] "cannot open a.jpg" _).
  vm_compute; reflexivity.
Defined.

(** ** The configuration across a run *)

Section Configuration.
Import CreateCOG.
Context {G : Gdal}.





Lemma create_translate_options_config m m' r :
  create_translate_options m = (m', r) ->
  self m' = (if bool_decide (compress_method (self m) = "JPEG")
             then set_compress_method "JPEG -co JPEG_QUALITY=75" (self m) else self m).
Proof.
  case_bool_decide as Hj.
  - destruct (create_translate_options_jpeg m Hj) as [opts ->]. by intros [= <- <-].
  - destruct (create_translate_options_other m Hj) as [opts ->]. by intros [= <- <-].
Qed.


Lemma for_invariant {A} (I : Machine -> Prop) (body : A -> M Machine unit) l :
  (forall x m m' r, I m -> body x m = (m', r) -> I m') ->
  forall m m' r, I m -> for_ l body m = (m', r) -> I m'.
Proof.
  intros Hb. induction l as [|x l IH]; intros m m' r Hm.
  - by intros [= <- <-].
  - rewrite for_cons. unfold bind. destruct (body x m) as [m1 [[]|e]] eqn:H1.
    + apply IH. eauto.
    + intros [= <- <-]. eauto.
Qed.


End Configuration.

(** ** The log of an absolute output directory can be opened *)

Section AbsoluteLog.

Lemma rfind_after_sep a name :
  Py.rfind "/" name = None ->
  Py.rfind "/" (a +:+ String "/" name) = Some (String.length a).
Proof.
  intros Hn. induction a as [|c a IH].
  - change (EmptyString +:+ String "/" name) with (String "/" name).
    cbn [Py.rfind String.length]. rewrite Hn. by rewrite decide_True.
  - change (String c a +:+ String "/" name) with (String c (a +:+ String "/" name)).
    cbn [Py.rfind String.length]. by rewrite IH.
Qed.

Lemma slice_to_cons n c s : Py.slice_to (S n) (String c s) = String c (Py.slice_to n s).
Proof. reflexivity. Qed.

Lemma slice_to_sep a name :
  Py.slice_to (S (String.length a)) (a +:+ String "/" name) = a +:+ "/".
Proof.
  induction a as [|c a IH]; [done|].
  change (String c a +:+ String "/" name) with (String c (a +:+ String "/" name)).
  change (String c a +:+ "/") with (String c (a +:+ "/")).
  change (String.length (String c a)) with (S (String.length a)).
  by rewrite slice_to_cons, IH.
Qed.

Lemma rstrip_slash_sep a x :
  Py.last_char a = Some x -> x <> "/"%char -> Py.rstrip_slash (a +:+ "/") = a.
Proof.
  induction a as [|c a IH]; [done|]. intros Hl Hx.
  change (String c a +:+ "/") with (String c (a +:+ "/")).
  cbn [Py.rstrip_slash]. destruct a as [|c' a'].
  - simpl in Hl. injection Hl as ->.
    change (EmptyString +:+ "/") with "/". cbn [Py.rstrip_slash].
    rewrite decide_True by done. by rewrite decide_False.
  - rewrite IH; [done| |done]. simpl in Hl |- *. by destruct (Py.last_char a').
Qed.

Lemma dirname_join out_dir name x :
  Py.last_char out_dir = Some x -> x <> "/"%char ->
  Py.rfind "/" name = None ->
  Py.dirname (out_dir +:+ "/" +:+ name) = out_dir.
Proof.
  intros Hl Hx Hn. unfold Py.dirname.
  change (out_dir +:+ "/" +:+ name) with (out_dir +:+ String "/" name).
  rewrite (rfind_after_sep _ _ Hn), slice_to_sep, (rstrip_slash_sep _ _ Hl Hx).
  by destruct out_dir.
Qed.

(** When the output directory is an absolute path without a trailing
    slash and names a directory, a log directly under it that is not
    itself a directory and that the operating system does not refuse can
    be opened for appending, whatever the working directory. *)
Lemma can_append_absolute fs0 out_dir name x :
  Py.startswith "/" out_dir = true ->
  Py.last_char out_dir = Some x -> x <> "/"%char ->
  Py.rfind "/" name = None -> name <> EmptyString ->
  out_dir ∈ dirs fs0 ->
  out_dir +:+ "/" +:+ name ∉ dirs fs0 ->
  refused fs0 !! (out_dir +:+ "/" +:+ name) = None ->
  can_append fs0 (Py.join out_dir name) = true.
Proof.
  intros Habs Hl Hx Hn Hne Hd Hnd Hnr.
  assert (Hname : Py.startswith "/" name = false).
  { destruct name as [|c name]; [done|]. rewrite startswith_slash.
    apply bool_decide_eq_false_2. intros ->. by eapply rfind_none_head. }
  assert (Hj : Py.join out_dir name = out_dir +:+ "/" +:+ name).
  { unfold Py.join. rewrite Hname.
    rewrite bool_decide_eq_false_2 by (by destruct out_dir).
    unfold Py.endswith_char. rewrite Hl.
    by rewrite bool_decide_eq_false_2 by congruence. }
  assert (Hr : resolve fs0 (Py.join out_dir name) = out_dir +:+ "/" +:+ name).
  { unfold resolve. rewrite Hj. unfold Py.join.
    destruct out_dir as [|c d]; [done|].
    change ((String c d) +:+ "/" +:+ name) with (String c (d +:+ "/" +:+ name)).
    rewrite startswith_slash in Habs |- *. by rewrite Habs. }
  unfold can_append, is_dir. rewrite Hr, (dirname_join _ _ _ Hl Hx Hn).
  rewrite (bool_decide_eq_false_2 (Py.join out_dir name = EmptyString)).
  2:{ rewrite Hj. by destruct out_dir. }
  rewrite (bool_decide_eq_false_2 _ Hnd), (bool_decide_eq_true_2 _ Hd).
  by rewrite (bool_decide_eq_true_2 _ Hnr).
Qed.

End AbsoluteLog.

(** * Further properties *)

(** ** Strings: appends, searches and slices *)

Section Strings.

Lemma str_app_cons c a b : String c a +:+ b = String c (a +:+ b).
Proof. reflexivity. Qed.

Lemma str_app_nil_r a : a +:+ EmptyString = a.
Proof. induction a as [|c a IH]; [done|]. by rewrite str_app_cons, IH. Qed.

Lemma str_app_assoc a b c : (a +:+ b) +:+ c = a +:+ (b +:+ c).
Proof. induction a as [|x a IH]; [done|]. by rewrite !str_app_cons, IH. Qed.

Lemma str_length_app a b : String.length (a +:+ b) = String.length a + String.length b.
Proof. induction a as [|x a IH]; [done|]. rewrite str_app_cons. simpl. by rewrite IH. Qed.

Lemma rfind_cons c a s :
  Py.rfind c (String a s)
  = match Py.rfind c s with
    | Some i => Some (S i)
    | None => if decide (a = c) then Some 0 else None
    end.
Proof. reflexivity. Qed.

Lemma rfind_cons_none c a s :
  Py.rfind c (String a s) = None <-> a <> c /\ Py.rfind c s = None.
Proof.
  rewrite rfind_cons. destruct (Py.rfind c s) as [i|].
  - split; [done|]. by intros [_ ?].
  - case_decide as Hac; split; try done; by intros [? _].
Qed.

Lemma rfind_app_none c a b :
  Py.rfind c a = None -> Py.rfind c b = None -> Py.rfind c (a +:+ b) = None.
Proof.
  intros Ha Hb. induction a as [|x a IH]; [done|].
  rewrite str_app_cons. apply rfind_cons_none in Ha as [Hx Ha].
  apply rfind_cons_none. auto.
Qed.

Lemma rfind_slice_to_none c d b : Py.rfind c b = None -> Py.rfind c (Py.slice_to d b) = None.
Proof.
  revert d. induction b as [|x b IH]; intros d Hb; [by destruct d|].
  destruct d as [|d]; [done|]. rewrite slice_to_cons.
  apply rfind_cons_none in Hb as [Hx Hb]. apply rfind_cons_none. auto.
Qed.

Lemma rfind_after c a name :
  Py.rfind c name = None -> Py.rfind c (a +:+ String c name) = Some (String.length a).
Proof.
  intros Hn. induction a as [|x a IH].
  - change (EmptyString +:+ String c name) with (String c name).
    rewrite rfind_cons, Hn. by rewrite decide_True.
  - rewrite str_app_cons, rfind_cons, IH. done.
Qed.

Lemma slice_from_after a c name :
  Py.slice_from (S (String.length a)) (a +:+ String c name) = name.
Proof. induction a as [|x a IH]; [done|]. rewrite str_app_cons. exact IH. Qed.

Lemma slice_to_app a b : Py.slice_to (String.length a) (a +:+ b) = a.
Proof.
  induction a as [|x a IH]; [done|].
  rewrite str_app_cons. change (String.length (String x a)) with (S (String.length a)).
  by rewrite slice_to_cons, IH.
Qed.

Lemma last_char_snoc d x : Py.last_char d = Some x -> exists d', d = d' +:+ String x EmptyString.
Proof.
  induction d as [|c d IH]; [done|]. simpl.
  destruct (Py.last_char d) as [y|] eqn:Hd.
  - intros [= ->]. destruct (IH eq_refl) as [d' ->]. by exists (String c d').
  - intros [= ->]. destruct d; [|by simpl in Hd; destruct (Py.last_char d)].
    by exists EmptyString.
Qed.

Lemma rfind_none_not_head c s : Py.rfind c s = None -> Py.startswith (String c EmptyString) s = false.
Proof.
  destruct s as [|a s]; [done|]. intros [Ha _]%rfind_cons_none.
  unfold Py.startswith. cbn [String.prefix].
  destruct (ascii_dec c a) as [->|]; done.
Qed.

(** the last component of a joined path is the name that was joined *)
Lemma basename_join d name : Py.rfind "/" name = None -> Py.basename (Py.join d name) = name.
Proof.
  intros Hn. unfold Py.join.
  rewrite (rfind_none_not_head _ _ Hn : Py.startswith "/" name = false).
  assert (Hsep : forall a, Py.basename (a +:+ String "/" name) = name).
  { intros a. unfold Py.basename. rewrite (rfind_after _ _ _ Hn). apply slice_from_after. }
  destruct (bool_decide (d = EmptyString)) eqn:Hd.
  - apply bool_decide_eq_true in Hd as ->. cbn [orb].
    change (EmptyString +:+ name) with name. unfold Py.basename. by rewrite Hn.
  - apply bool_decide_eq_false in Hd. cbn [orb]. unfold Py.endswith_char.
    destruct (decide (Py.last_char d = Some "/"%char)) as [Hl|Hl].
    + rewrite (bool_decide_eq_true_2 _ Hl).
      apply last_char_snoc in Hl as [d' ->]. rewrite str_app_assoc. apply Hsep.
    + rewrite (bool_decide_eq_false_2 _ Hl). apply Hsep.
Qed.

End Strings.

(** ** The tokens and the derived name of a path *)

Section Names.
Import CreateCOG.

(** X1: when the leftmost token that contains utm or bcalb is not a key
    of the table, the resolver raises [KeyError] and leaves the state as
    it was; the tokens after it are not looked at. *)
Theorem epsg_from_filename_unknown_token filename pre tok post m :
  tokens_of filename = pre ++ tok :: post ->
  Forall (fun t => names_projection t = false) pre ->
  names_projection tok = true ->
  PROJECTIONS !! tok = None ->
  exists e, epsg_from_filename filename m = (m, Raise e) /\ exn_cls e = KeyError.
Proof.
  intros Htok Hpre Hn Hl. unfold epsg_from_filename.
  rewrite Htok, (epsg_scan_skip _ _ _ Hpre). simpl. rewrite Hn, Hl. by eexists.
Qed.

Lemma epsg_from_filename_unknown_token_witness :
  exists e,
    epsg_from_filename "/in/x_utm12_utm10.dem" Stub.m_fresh = (Stub.m_fresh, Raise e)
    /\ exn_cls e = KeyError.
Proof.
  apply (epsg_from_filename_unknown_token "/in/x_utm12_utm10.dem" ["x"] "utm12" ["utm10"]).
  - reflexivity.
  - repeat constructor.
  - reflexivity.
  - vm_compute; reflexivity.
Defined.

(** X2: the tokens, the derived output name and the resolver depend on
    the last component of the path only: whatever directory a name
    without slash is joined to, they are those of the bare name. *)
Theorem directory_is_ignored d name :
  Py.rfind "/" name = None ->
  tokens_of (Py.join d name) = tokens_of name
  /\ out_name_of (Py.join d name) = out_name_of name
  /\ forall m, epsg_from_filename (Py.join d name) m = epsg_from_filename name m.
Proof.
  intros Hn.
  assert (Hb : Py.basename (Py.join d name) = Py.basename name).
  { rewrite (basename_join _ _ Hn). unfold Py.basename. by rewrite Hn. }
  unfold epsg_from_filename, tokens_of, out_name_of. by rewrite Hb.
Qed.

Lemma directory_is_ignored_witness :
  tokens_of (Py.join "/data/utm10_tiles" "c_badtoken.tif") = tokens_of "c_badtoken.tif"
  /\ out_name_of (Py.join "/data/utm10_tiles" "c_badtoken.tif") = out_name_of "c_badtoken.tif"
  /\ forall m, epsg_from_filename (Py.join "/data/utm10_tiles" "c_badtoken.tif") m
               = epsg_from_filename "c_badtoken.tif" m.
Proof. apply (directory_is_ignored "/data/utm10_tiles" "c_badtoken.tif"). reflexivity. Defined.

Lemma split_nonempty c s : Py.split c s <> [].
Proof. destruct s as [|a s]; [done|]. simpl. case_decide; [done|]. by destruct (Py.split c s). Qed.

Lemma concat_cons2 sep x y l :
  String.concat sep (x :: y :: l) = x +:+ sep +:+ String.concat sep (y :: l).
Proof. reflexivity. Qed.

Lemma concat_split c s : String.concat (String c EmptyString) (Py.split c s) = s.
Proof.
  induction s as [|a s IH]; [done|]. simpl Py.split.
  pose proof (split_nonempty c s) as Hne.
  destruct (Py.split c s) as [|t ts] eqn:Hs; [done|].
  case_decide as Hac.
  - subst a. by rewrite concat_cons2, IH.
  - destruct ts as [|t' ts].
    + cbn [String.concat] in IH |- *. by rewrite IH.
    + rewrite concat_cons2 in IH |- *. by rewrite str_app_cons, IH.
Qed.

Lemma split_no_sep c s : Forall (fun t => Py.rfind c t = None) (Py.split c s).
Proof.
  induction s as [|a s IH]; [by repeat constructor|]. simpl Py.split.
  pose proof (split_nonempty c s) as Hne.
  destruct (Py.split c s) as [|t ts]; [done|].
  apply Forall_cons in IH as [Ht Hts].
  case_decide as Hac.
  - by repeat constructor.
  - constructor; [|done]. apply rfind_cons_none. auto.
Qed.

(** X3: the tokens the resolver goes through are the stem of the
    basename cut at its underscores: joined with underscores they give the
    stem back, there is at least one, and none contains an underscore. *)
Theorem tokens_of_round_trip filename :
  String.concat "_" (tokens_of filename) = (Py.splitext (Py.basename filename)).1
  /\ tokens_of filename <> []
  /\ Forall (fun t => Py.rfind "_" t = None) (tokens_of filename).
Proof.
  unfold tokens_of. split_and!.
  - apply concat_split.
  - apply split_nonempty.
  - apply split_no_sep.
Qed.

Lemma has_non_dot_head n c s :
  c <> "."%char -> Py.has_non_dot (S n) (String c s) = true.
Proof. intros Hc. simpl. by rewrite decide_False. Qed.

Lemma out_name_of_plain d stem ext c rest :
  stem = String c rest -> c <> "."%char ->
  Py.rfind "/" stem = None -> Py.rfind "/" ext = None -> Py.rfind "." ext = None ->
  out_name_of (Py.join d (stem +:+ "." +:+ ext)) = stem +:+ ".tif".
Proof.
  intros Hstem Hc Hs He Hd.
  assert (Hname : Py.rfind "/" (stem +:+ "." +:+ ext) = None).
  { apply rfind_app_none; [done|]. change ("." +:+ ext) with (String "." ext).
    apply rfind_cons_none. done. }
  unfold out_name_of. rewrite (basename_join _ _ Hname).
  unfold Py.splitext. rewrite Hname.
  change (stem +:+ "." +:+ ext) with (stem +:+ String "." ext).
  rewrite (rfind_after _ _ _ Hd).
  rewrite bool_decide_eq_true_2 by lia. rewrite Nat.sub_0_r.
  change (Py.slice_from 0 (stem +:+ String "." ext)) with (stem +:+ String "." ext).
  rewrite slice_to_app.
  rewrite Hstem at 1 2. rewrite str_app_cons.
  change (String.length (String c rest)) with (S (String.length rest)).
  by rewrite (has_non_dot_head _ _ _ Hc).
Qed.

(** X4: for a path whose last component is a stem that does not begin
    with a dot, followed by a dot and an extension without dot, the derived
    output name is the stem followed by [.tif], whatever the directory and
    the extension: inputs that differ in these only share one output. *)
Theorem out_name_of_stem d stem ext c rest :
  stem = String c rest -> c <> "."%char ->
  Py.rfind "/" stem = None -> Py.rfind "/" ext = None -> Py.rfind "." ext = None ->
  out_name_of (Py.join d (stem +:+ "." +:+ ext)) = stem +:+ ".tif".
Proof. apply out_name_of_plain. Qed.

Lemma out_name_of_stem_witness :
  out_name_of (Py.join "/in" ("bc_092g025_utm10" +:+ "." +:+ "dem")) = "bc_092g025_utm10" +:+ ".tif"
  /\ out_name_of (Py.join "/old" ("bc_092g025_utm10" +:+ "." +:+ "asc")) = "bc_092g025_utm10" +:+ ".tif".
Proof.
  split.
  - by apply (out_name_of_stem "/in" "bc_092g025_utm10" "dem" "b" "c_092g025_utm10").
  - by apply (out_name_of_stem "/old" "bc_092g025_utm10" "asc" "b" "c_092g025_utm10").
Defined.

Lemma out_name_no_slash file : Py.rfind "/" (out_name_of file) = None.
Proof.
  unfold out_name_of. apply rfind_app_none; [|done].
  pose proof (rfind_basename file) as Hb. set (b := Py.basename file) in *.
  assert (Hstem : (Py.splitext b).1 = b \/ exists d, (Py.splitext b).1 = Py.slice_to d b).
  { unfold Py.splitext. repeat case_match; simpl; eauto. }
  destruct Hstem as [->|[d ->]]; [done|]. by apply rfind_slice_to_none.
Qed.

(** X5: a derived output name is a bare file name ending in [.tif]; so,
    from a working directory given without trailing slash, the output of
    every input resolves to a file directly in that directory, wherever
    the input lies. *)
Theorem out_name_of_lands_in_cwd fs0 file x :
  Py.last_char (cwd fs0) = Some x -> x <> "/"%char ->
  Py.rfind "/" (out_name_of file) = None
  /\ (exists s, out_name_of file = s +:+ ".tif")
  /\ resolve fs0 (out_name_of file) = cwd fs0 +:+ "/" +:+ out_name_of file
  /\ Py.dirname (resolve fs0 (out_name_of file)) = cwd fs0.
Proof.
  intros Hl Hx. pose proof (out_name_no_slash file) as Hn.
  assert (Hr : resolve fs0 (out_name_of file) = cwd fs0 +:+ "/" +:+ out_name_of file).
  { unfold resolve, Py.join. rewrite out_name_relative.
    rewrite bool_decide_eq_false_2 by (by destruct (cwd fs0)).
    unfold Py.endswith_char. rewrite Hl.
    by rewrite bool_decide_eq_false_2 by congruence. }
  split_and!; [done|by eexists|done|].
  rewrite Hr. by apply (dirname_join _ _ x).
Qed.

Lemma out_name_of_lands_in_cwd_witness :
  Py.dirname (resolve (fs Stub.m_in_out) (out_name_of "/in/deep/tree/a.dem")) = "/out".
Proof.
  refine (proj2 (proj2 (proj2 (out_name_of_lands_in_cwd (fs Stub.m_in_out)
                                 "/in/deep/tree/a.dem" "t" _ _)))); done.
Defined.

End Names.

(** ** The converter: directory, success, and what it never does *)

Section Converter.
Import CreateCOG.
Context {G : Gdal}.

(** X6: once a quality has been set through [set_jpeg_quality], whatever
    the quality and whatever the compression method was, building the
    options no longer changes the instance: the default quality is never
    appended after an explicit one. *)
Theorem explicit_quality_is_kept jpeg_quality m :
  exists opts,
    create_translate_options (set_jpeg_quality jpeg_quality m).1
    = ((set_jpeg_quality jpeg_quality m).1, Return opts).
Proof.
  apply create_translate_options_other.
  unfold set_jpeg_quality, modify, with_self. cbn [fst self compress_method set_compress_method].
  intros Heq. apply (f_equal String.length) in Heq.
  rewrite !str_length_app in Heq. simpl in Heq. lia.
Qed.

Lemma path_exists_written fs0 p content :
  p <> EmptyString -> path_exists (fs_write p content fs0) p = true.
Proof.
  intros Hp. unfold path_exists, is_file, fs_write, resolve. cbn [files cwd].
  rewrite (bool_decide_eq_false_2 _ Hp), lookup_insert_eq.
  by rewrite bool_decide_eq_true_2.
Qed.

(** X7: on a file that is not skipped, whose resolution returns and whose
    translate call succeeds, the loop body returns normally, the file at
    the derived path holds what the library wrote, no other file changes
    (no log is created), one call is recorded, and the same body run again
    on that file does nothing. *)
Theorem translate_success_then_skipped out_dir file m m1 opts content :
  path_exists (fs m) (out_name_of file) = false ->
  (epsg_from_filename file ;; create_translate_options) m = (m1, Return opts) ->
  Translate (out_name_of file) file opts (fs m1) = TranslateOk content ->
  exists m',
    compress_and_tile_one out_dir file m = (m', Return tt)
    /\ files (fs m') !! resolve (fs m) (out_name_of file) = Some content
    /\ frame_except [resolve (fs m) (out_name_of file)] (fs m) (fs m')
    /\ trace m' = trace m ++ [EvTranslate (out_name_of file) file opts]
    /\ compress_and_tile_one out_dir file m' = (m', Return tt).
Proof.
  intros Hnew Hpre Hok.
  pose proof (resolver_then_options_inv _ _ _ _ Hpre) as [Hf1 Ht1].
  set (m' := with_fs (fs_write (out_name_of file) content)
               (emit (EvTranslate (out_name_of file) file opts) m1)).
  assert (Hbody : compress_and_tile_one out_dir file m = (m', Return tt)).
  { rewrite (compress_and_tile_one_unfold _ _ _ Hnew).
    rewrite <- (bind_assoc (epsg_from_filename file) (fun _ => create_translate_options)).
    rewrite (bind_return _ _ _ _ _ Hpre). by apply logged_translate_ok. }
  exists m'. subst m'. cbn [fs with_fs emit trace]. rewrite Hf1, Ht1. split_and!.
  - done.
  - unfold fs_write. cbn [files]. apply lookup_insert_eq.
  - apply fs_write_frame.
  - done.
  - apply compress_and_tile_one_skip. cbn [fs with_fs emit].
    rewrite Hf1. apply path_exists_written, out_name_nonempty.
Qed.

Lemma compress_and_tile_one_fs out_dir file m m' r :
  compress_and_tile_one out_dir file m = (m', r) ->
  dirs (fs m') = dirs (fs m) /\ cwd (fs m') = cwd (fs m).
Proof.
  destruct (path_exists (fs m) (out_name_of file)) eqn:Hex.
  - rewrite (compress_and_tile_one_skip _ _ _ Hex). by intros [= <- <-].
  - intros Hr. apply (compress_and_tile_one_run _ _ _ _ _ Hex) in Hr as [(Hd & Hc & _ & _) _].
    done.
Qed.




End Converter.

Lemma translate_success_then_skipped_witness :
  exists m',
    @CreateCOG.compress_and_tile_one (Stub.gdal []) "/out" "/in/a.dem" Stub.m_in_out
    = (m', Return tt)
    /\ files (CreateCOG.fs m') !! "/out/a.tif" = Some "GTiff"
    /\ @CreateCOG.compress_and_tile_one (Stub.gdal []) "/out" "/in/a.dem" m' = (m', Return tt).
Proof.
  destruct (@translate_success_then_skipped (Stub.gdal []) "/out" "/in/a.dem"
              Stub.m_in_out _ _ "GTiff" eq_refl eq_refl eq_refl)
    as (m' & Hb & Hf & _ & _ & Hagain).
  exists m'. split_and!; [exact Hb| |exact Hagain].
  etrans; [|exact Hf]. reflexivity.
Defined.



(** ** Neither loop removes or overwrites a file *)

Section Growth.
Import CreateCOG.
Context {G : Gdal}.

Lemma not_file_lookup fs0 p : is_file fs0 p = false -> files fs0 !! resolve fs0 p = None.
Proof.
  unfold is_file. intros H%bool_decide_eq_false.
  destruct (files fs0 !! resolve fs0 p); [|done]. destruct H. by eexists.
Qed.

Lemma path_exists_false_not_file fs0 p :
  p <> EmptyString -> path_exists fs0 p = false -> is_file fs0 p = false.
Proof.
  unfold path_exists. intros Hp. rewrite (bool_decide_eq_false_2 _ Hp). cbn.
  by intros [? ?]%orb_false_elim.
Qed.

(** the call and its handler keep every file, appending to the log at most *)
Lemma logged_translate_grows logp dst src opts m m' r :
  files (fs m) !! resolve (fs m) dst = None ->
  logged_translate logp dst src opts m = (m', r) ->
  forall q c, files (fs m) !! q = Some c ->
    exists s, files (fs m') !! q = Some (c +:+ s)
              /\ (q <> resolve (fs m) logp -> s = EmptyString).
Proof.
  intros Hdst Hrun q c Hq.
  assert (Hqd : resolve (fs m) dst <> q) by (intros <-; congruence).
  assert (Hkeep : forall content,
            files (fs_write dst content (fs m)) !! q = Some c).
  { intros content. unfold fs_write. cbn [files]. by rewrite lookup_insert_ne. }
  destruct (Translate dst src opts (fs m)) as [content|msg partial] eqn:Ht.
  - rewrite (logged_translate_ok _ _ _ _ _ _ Ht) in Hrun. injection Hrun as <- <-.
    exists EmptyString. cbn [fs with_fs emit]. by rewrite str_app_nil_r.
  - rewrite (logged_translate_fail _ _ _ _ _ _ _ Ht) in Hrun.
    set (m3 := match partial with Some _ => _ | None => _ end) in Hrun.
    assert (H3 : files (fs m3) !! q = Some c /\ cwd (fs m3) = cwd (fs m)).
    { subst m3. destruct partial; cbn [fs with_fs emit]; auto. }
    destruct H3 as [Hq3 Hc3].
    unfold append_file, os_call in Hrun.
    destruct (fs_append logp _ (fs m3)) as [e|fs'] eqn:Ha; injection Hrun as <- <-.
    + exists EmptyString. by rewrite str_app_nil_r.
    + cbn [fs with_fs]. destruct (decide (q = resolve (fs m) logp)) as [->|Hne].
      * apply fs_append_content in Ha. rewrite (resolve_cwd _ _ _ Hc3) in Ha.
        rewrite Hq3 in Ha. eexists. split; [exact Ha|done].
      * apply fs_append_frame in Ha as (_ & _ & _ & Hfl).
        rewrite (resolve_cwd _ _ _ Hc3) in Hfl.
        exists EmptyString. rewrite str_app_nil_r. split; [|done].
        rewrite Hfl; [done|]. rewrite elem_of_cons, elem_of_nil. by intros [?|[]].
Qed.

Lemma compress_and_tile_one_grows out_dir file m m' r :
  compress_and_tile_one out_dir file m = (m', r) ->
  forall q c, files (fs m) !! q = Some c ->
    exists s, files (fs m') !! q = Some (c +:+ s)
              /\ (q <> resolve (fs m) (convert_log out_dir) -> s = EmptyString).
Proof.
  destruct (path_exists (fs m) (out_name_of file)) eqn:Hex.
  - rewrite (compress_and_tile_one_skip _ _ _ Hex). intros [= <- <-] q c Hq.
    exists EmptyString. by rewrite str_app_nil_r.
  - rewrite (compress_and_tile_one_unfold _ _ _ Hex). unfold bind.
    destruct (epsg_from_filename file m) as [m1 r1] eqn:He.
    apply epsg_scan_inv in He as [Hf1 _].
    destruct r1 as [[]|e].
    + destruct (create_translate_options m1) as [m2 r2] eqn:Hc.
      apply create_translate_options_inv in Hc as (Hf2 & _ & opts & ->).
      intros Hl q c Hq. rewrite <- Hf1, <- Hf2 in Hq |- *.
      eapply logged_translate_grows; [|done..].
      rewrite Hf2, Hf1. apply not_file_lookup.
      by apply path_exists_false_not_file; [apply out_name_nonempty|].
    + intros [= <- <-] q c Hq. rewrite Hf1. exists EmptyString. by rewrite str_app_nil_r.
Qed.

Lemma create_cog_one_grows out trans_opt file m m' r :
  create_cog_one out trans_opt file m = (m', r) ->
  forall q c, files (fs m) !! q = Some c ->
    exists s, files (fs m') !! q = Some (c +:+ s)
              /\ (q <> resolve (fs m) (cog_log out) -> s = EmptyString).
Proof.
  destruct (path_exists (fs m) (out_name_of file)) eqn:Hex.
  - rewrite (create_cog_one_skip _ _ _ _ Hex). intros [= <- <-] q c Hq.
    exists EmptyString. by rewrite str_app_nil_r.
  - rewrite (create_cog_one_unfold _ _ _ _ Hex). intros Hl.
    eapply logged_translate_grows; [|exact Hl].
    apply not_file_lookup.
    by apply path_exists_false_not_file; [apply out_name_nonempty|].
Qed.

Lemma create_cog_one_fs out trans_opt file m m' r :
  create_cog_one out trans_opt file m = (m', r) ->
  dirs (fs m') = dirs (fs m) /\ cwd (fs m') = cwd (fs m).
Proof.
  destruct (path_exists (fs m) (out_name_of file)) eqn:Hex.
  - rewrite (create_cog_one_skip _ _ _ _ Hex). by intros [= <- <-].
  - intros Hr. destruct (create_cog_one_run _ _ _ _ _ _ Hex Hr) as [(Hd & Hc & _ & _) _].
    done.
Qed.

(** a loop whose body keeps the working directory and keeps every file,
    appending to one log at most, does so as a whole *)
Lemma for_grows (body : string -> M Machine unit) (logp : string) l :
  (forall x m m' r, body x m = (m', r) ->
     cwd (fs m') = cwd (fs m)
     /\ forall q c, files (fs m) !! q = Some c ->
          exists s, files (fs m') !! q = Some (c +:+ s)
                    /\ (q <> resolve (fs m) logp -> s = EmptyString)) ->
  forall m m' r, for_ l body m = (m', r) ->
    forall q c, files (fs m) !! q = Some c ->
      exists s, files (fs m') !! q = Some (c +:+ s)
                /\ (q <> resolve (fs m) logp -> s = EmptyString).
Proof.
  intros Hb m m' r Hrun.
  cut (cwd (fs m') = cwd (fs m)
       /\ forall q c, files (fs m) !! q = Some c ->
            exists s, files (fs m') !! q = Some (c +:+ s)
                      /\ (q <> resolve (fs m) logp -> s = EmptyString)); [by intros [_ ?]|].
  revert Hrun.
  apply (for_invariant (fun m0 =>
           cwd (fs m0) = cwd (fs m)
           /\ forall q c, files (fs m) !! q = Some c ->
                exists s, files (fs m0) !! q = Some (c +:+ s)
                          /\ (q <> resolve (fs m) logp -> s = EmptyString))).
  - intros x m0 m0' r0 [Hc Hg] Hx. apply Hb in Hx as [Hc' Hg'].
    split; [congruence|]. intros q c Hq.
    destruct (Hg q c Hq) as (s & Hs & Hs0).
    destruct (Hg' q _ Hs) as (s' & Hs' & Hs0').
    rewrite (resolve_cwd _ _ _ Hc) in Hs0'.
    exists (s +:+ s'). rewrite <- str_app_assoc. split; [done|].
    intros Hne. by rewrite (Hs0 Hne), (Hs0' Hne).
  - split; [done|]. intros q c Hq. exists EmptyString. by rewrite str_app_nil_r.
Qed.

(** X10: neither the converter nor the assembler removes or overwrites a
    file.  Whatever the list, the library's behaviour and the way the
    call ends, every file that existed before the call exists after it
    with the same content, except the error log, whose former content is
    kept as the beginning of the new one. *)
Theorem batch_loops_only_add l out_dir m :
  (forall q c, files (fs m) !! q = Some c ->
     exists s, files (fs (batch_compress_and_tile l out_dir m).1) !! q = Some (c +:+ s)
               /\ (q <> resolve (entered out_dir (fs m)) (convert_log out_dir)
                   -> s = EmptyString))
  /\ (forall q c, files (fs m) !! q = Some c ->
        exists s, files (fs (batch_create_cog l out_dir m).1) !! q = Some (c +:+ s)
                  /\ (q <> resolve (entered (Py.join out_dir "COG") (fs m))
                                   (cog_log (Py.join out_dir "COG"))
                      -> s = EmptyString)).
Proof.
  split; intros q c Hq.
  - unfold batch_compress_and_tile, bind, os_chdir, os_call.
    destruct (fs_chdir out_dir (fs m)) as [e|fs1] eqn:Hcd.
    { exists EmptyString. by rewrite str_app_nil_r. }
    apply fs_chdir_entered in Hcd as ->.
    set (m1 := with_fs _ m).
    destruct (for_ l (compress_and_tile_one out_dir) m1) as [m' r] eqn:Hrun.
    apply (for_grows (compress_and_tile_one out_dir) (convert_log out_dir) l) with (q := q) (c := c)
      in Hrun; [done| |done].
    intros x m0 m0' r0 Hx. split.
    + by apply compress_and_tile_one_fs in Hx as [_ ?].
    + exact (compress_and_tile_one_grows _ _ _ _ _ Hx).
  - unfold batch_create_cog, bind, gets, os_mkdir, os_chdir, os_call.
    cbv zeta. cbn [fs with_fs].
    destruct (fs_mkdir (Py.join out_dir "COG") (fs m)) as [e|fs1] eqn:Hmk.
    { exists EmptyString. by rewrite str_app_nil_r. }
    apply fs_mkdir_inv in Hmk as (Hf1 & Hc1 & Hd1). cbn [fs with_fs].
    destruct (fs_chdir (Py.join out_dir "COG") fs1) as [e|fs2] eqn:Hcd.
    { exists EmptyString. cbn [fst fs with_fs]. by rewrite str_app_nil_r, Hf1. }
    apply fs_chdir_entered in Hcd as ->.
    set (opts := TranslateOptions_of _).
    set (out := Py.join out_dir "COG") in *.
    set (m1 := with_fs _ (with_fs _ m)).
    destruct (for_ l (create_cog_one out opts) m1) as [m' r] eqn:Hrun.
    assert (Hq1 : files (fs m1) !! q = Some c) by (subst m1; cbn; by rewrite Hf1).
    apply (for_grows (create_cog_one out opts) (cog_log out) l) with (q := q) (c := c)
      in Hrun; [| |exact Hq1].
    + destruct Hrun as (s & Hs & Hs0). exists s. split; [exact Hs|].
      intros Hne. apply Hs0. subst m1. unfold resolve, entered in Hne |- *.
      cbn [fs with_fs cwd] in Hne |- *. unfold resolve in Hne |- *. by rewrite Hc1.
    + intros x m0 m0' r0 Hx. split.
      * by apply create_cog_one_fs in Hx as [_ ?].
      * exact (create_cog_one_grows _ _ _ _ _ _ Hx).
Qed.

End Growth.

(** ** The first run of the assembler *)

Section Assembler.
Import CreateCOG.
Context {G : Gdal}.

Lemma join_longer X n : n <> EmptyString -> Py.startswith "/" n = false -> Py.join X n <> X.
Proof.
  intros Hn Hrel. unfold Py.join. rewrite Hrel.
  assert (Hlen : 0 < String.length n) by (destruct n; [done|simpl; lia]).
  destruct (_ || _); intros Heq; apply (f_equal String.length) in Heq;
    rewrite !str_length_app in Heq; simpl in Heq; lia.
Qed.

Lemma fs_mkdir_absent p fs0 fs1 :
  fs_mkdir p fs0 = inr fs1 -> is_dir fs0 p = false /\ is_file fs0 p = false.
Proof.
  unfold fs_mkdir. intros H. repeat case_match; simplify_eq.
  by apply orb_false_elim.
Qed.

(** X11: when the assembler returns without raising, over files with
    pairwise distinct derived output names, the COG subdirectory did not
    exist before the call and is a directory after it, the working
    directory is that subdirectory, and the calls recorded are translate
    calls, as many as there are files less those whose derived name
    existed under the subdirectory's path beforehand. *)
Theorem batch_create_cog_first_run l out_dir m m' :
  NoDup (map out_name_of l) ->
  batch_create_cog l out_dir m = (m', Return tt) ->
  is_dir (fs m) (Py.join out_dir "COG") = false
  /\ resolve (fs m) (Py.join out_dir "COG") ∈ dirs (fs m')
  /\ cwd (fs m') = resolve (fs m) (Py.join out_dir "COG")
  /\ exists evs,
      trace m' = trace m ++ evs
      /\ Forall (fun ev => is_translate ev = true) evs
      /\ length evs
         = length l
           - length (filter (fun g => path_exists (entered (Py.join out_dir "COG") (fs m))
                                        (out_name_of g) = true) l).
Proof.
  intros Hnd. unfold batch_create_cog, bind, gets, os_mkdir, os_chdir, os_call.
  cbv zeta. cbn [fs with_fs].
  set (out := Py.join out_dir "COG").
  destruct (fs_mkdir out (fs m)) as [e|fs1] eqn:Hmk; [done|].
  pose proof (fs_mkdir_absent _ _ _ Hmk) as [Hnodir _].
  apply fs_mkdir_inv in Hmk as (Hf1 & Hc1 & Hd1). cbn [fs with_fs].
  destruct (fs_chdir out fs1) as [e|fs2] eqn:Hcd; [done|].
  apply fs_chdir_entered in Hcd as ->.
  set (opts := TranslateOptions_of _).
  set (m1 := with_fs _ (with_fs _ m)). intros Hrun.
  assert (Hcwd1 : cwd (fs m1) = resolve (fs m) out).
  { subst m1. cbn [fs with_fs entered cwd]. unfold resolve. by rewrite Hc1. }
  assert (Hinv : cwd (fs m') = resolve (fs m) out /\ dirs (fs m') = dirs fs1).
  { revert Hrun.
    apply (for_invariant (fun m0 => cwd (fs m0) = resolve (fs m) out
                                    /\ dirs (fs m0) = dirs fs1)); [|done].
    intros x m0 m0' r0 [Hc Hds] Hb. apply create_cog_one_fs in Hb as [Hd' Hc'].
    split; congruence. }
  destruct Hinv as [Hcwd Hdirs].
  destruct (loop_count (create_cog_one out opts) (cog_log out)
              (cog_log_t out) (create_cog_one_skip out opts)
              (create_cog_one_run out opts) l m1 m' Hnd Hrun)
    as (evs & Htr & Hall & Hlen).
  split_and!; [done| |done|].
  - rewrite Hdirs, Hd1. apply elem_of_union_l. by apply elem_of_singleton.
  - exists evs. split_and!; [done..|].
    assert (Hsame : filter (fun g => path_exists (fs m1) (out_name_of g) = true) l
                    = filter (fun g => path_exists (entered out (fs m)) (out_name_of g) = true) l).
    { apply filter_ext_in. intros g _.
      assert (Hr : resolve (fs m1) (out_name_of g) = resolve (entered out (fs m)) (out_name_of g)).
      { unfold resolve. by rewrite Hcwd1. }
      unfold path_exists, is_file, is_dir. rewrite Hr.
      subst m1. cbn [fs with_fs entered files dirs]. rewrite Hf1, Hd1.
      assert (Hne : resolve (entered out (fs m)) (out_name_of g) <> resolve (fs m) out).
      { apply join_longer; [apply out_name_nonempty|apply out_name_relative]. }
      assert (Hiff : bool_decide (resolve (entered out (fs m)) (out_name_of g)
                                  ∈ ({[resolve (fs m) out]} ∪ dirs (fs m) : gset string))
                     = bool_decide (resolve (entered out (fs m)) (out_name_of g) ∈ dirs (fs m))).
      { apply bool_decide_ext. rewrite elem_of_union, elem_of_singleton. tauto. }
      by rewrite Hiff. }
    rewrite Hsame in Hlen. lia.
Qed.

End Assembler.

Lemma batch_create_cog_first_run_witness :
  exists evs,
    CreateCOG.trace (@CreateCOG.batch_create_cog (Stub.gdal [])
                       ["/out/a.tif"; "/out/b.tif"] "/out"
                       (Stub.machine [("/out/a.tif", "GTiff"); ("/out/b.tif", "GTiff")]
                                     ["/"; "/out"] "/out")).1
    = [] ++ evs
    /\ Forall (fun ev => is_translate ev = true) evs
    /\ length evs = 2 - 0.
Proof.
  destruct (@batch_create_cog_first_run (Stub.gdal []) ["/out/a.tif"; "/out/b.tif"] "/out"
              (Stub.machine [("/out/a.tif", "GTiff"); ("/out/b.tif", "GTiff")]
                            ["/"; "/out"] "/out")
              (@CreateCOG.batch_create_cog (Stub.gdal [])
                 ["/out/a.tif"; "/out/b.tif"] "/out"
                 (Stub.machine [("/out/a.tif", "GTiff"); ("/out/b.tif", "GTiff")]
                               ["/"; "/out"] "/out")).1)
    as (_ & _ & _ & evs & Htr & Hall & Hlen).
  - by_decide.
  - vm_compute; reflexivity.
  - exists evs. split_and!; [exact Htr|exact Hall|].
    rewrite Hlen. vm_compute; reflexivity.
Defined.

(** ** Files whose output exists are left alone *)

Section Existing.
Import CreateCOG.
Context {G : Gdal}.

(** the assembler on a list in two parts: the working directory after the
    first part is the COG subdirectory, and the second part is the loop
    from the state the first part ended in *)
Lemma batch_create_cog_app pre out_dir m m1 :
  batch_create_cog pre out_dir m = (m1, Return tt) ->
  cwd (fs m1) = resolve (fs m) (Py.join out_dir "COG")
  /\ exists trans_opt, forall l,
      batch_create_cog (pre ++ l) out_dir m
      = for_ l (create_cog_one (Py.join out_dir "COG") trans_opt) m1.
Proof.
  unfold batch_create_cog, bind, gets, os_mkdir, os_chdir, os_call.
  cbv zeta. cbn [fs with_fs].
  set (out := Py.join out_dir "COG").
  destruct (fs_mkdir out (fs m)) as [e|fs1] eqn:Hmk; [done|].
  apply fs_mkdir_inv in Hmk as (Hf1 & Hc1 & Hd1). cbn [fs with_fs].
  destruct (fs_chdir out fs1) as [e|fs2] eqn:Hcd; [done|].
  apply fs_chdir_entered in Hcd as ->.
  set (opts := TranslateOptions_of _).
  set (m0 := with_fs _ (with_fs _ m)). intros Hpre. split.
  - assert (Hcwd0 : cwd (fs m0) = resolve (fs m) out).
    { subst m0. cbn [fs with_fs entered cwd]. unfold resolve. by rewrite Hc1. }
    revert Hpre.
    apply (for_invariant (fun m2 => cwd (fs m2) = resolve (fs m) out)); [|exact Hcwd0].
    intros x m2 m2' r2 Hc Hb. apply create_cog_one_fs in Hb as [_ Hc']. congruence.
  - exists opts. intros l. by rewrite for_app, Hpre.
Qed.

(** C1 (as amended): a file whose derived output name exists in the
    directory the function writes to is left alone.  For the converter
    that directory is the output directory: the whole call is the run on
    the list without the file, so no log entry stems from it; no translate
    call is made from it or onto the derived name; and the existing output
    file is unchanged.  For the assembler it is the COG subdirectory, which
    the call creates and enters: once the files [pre] of the list have been
    processed and the derived name exists there, the same holds of the rest
    of the call. *)
Theorem existing_output_left_untouched l out_dir f m :
  (path_exists (entered out_dir (fs m)) (out_name_of f) = true ->
   left_untouched f (entered out_dir (fs m)) m
     (batch_compress_and_tile l out_dir m)
     (batch_compress_and_tile (filter (fun g => g <> f) l) out_dir m))
  /\ (forall pre m1,
        batch_create_cog pre out_dir m = (m1, Return tt) ->
        path_exists (fs m1) (out_name_of f) = true ->
        cwd (fs m1) = resolve (fs m) (Py.join out_dir "COG")
        /\ left_untouched f (fs m1) m1
             (batch_create_cog (pre ++ l) out_dir m)
             (batch_create_cog (pre ++ filter (fun g => g <> f) l) out_dir m)).
Proof.
  split; [apply batch_compress_and_tile_untouched|].
  intros pre m1 Hpre Hex.
  destruct (batch_create_cog_app pre out_dir m m1 Hpre) as (Hcwd & opts & Hl).
  split; [exact Hcwd|].
  rewrite !Hl.
  set (out := Py.join out_dir "COG") in *.
  destruct (for_ l (create_cog_one out opts) m1) as [m' r] eqn:Hrun.
  destruct (loop_untouched (create_cog_one out opts) (cog_log out)
              (cog_log_t out) (create_cog_one_skip out opts)
              (create_cog_one_run out opts) f l m1 m' r Hex Hrun)
    as (Hwithout & Hev & Hfile & _).
  split_and!; [exact Hwithout | exact Hev | exact Hfile].
Qed.

End Existing.

Lemma existing_output_left_untouched_witness :
  left_untouched "/in/x.dem" (entered "/out" (CreateCOG.fs Stub.m_rerun)) Stub.m_rerun
    (@CreateCOG.batch_compress_and_tile (Stub.gdal [])
       ["/in/x.dem"; "/in/y.dem"] "/out" Stub.m_rerun)
    (@CreateCOG.batch_compress_and_tile (Stub.gdal [])
       (filter (fun g => g <> "/in/x.dem") ["/in/x.dem"; "/in/y.dem"]) "/out" Stub.m_rerun)
  /\ left_untouched "/b/x.tif"
       (CreateCOG.fs (@CreateCOG.batch_create_cog (Stub.gdal []) ["/a/x.tif"] "/out"
                        Stub.m_tiled_twins).1)
       (@CreateCOG.batch_create_cog (Stub.gdal []) ["/a/x.tif"] "/out" Stub.m_tiled_twins).1
       (@CreateCOG.batch_create_cog (Stub.gdal [])
          (["/a/x.tif"] ++ ["/b/x.tif"]) "/out" Stub.m_tiled_twins)
       (@CreateCOG.batch_create_cog (Stub.gdal [])
          (["/a/x.tif"] ++ filter (fun g => g <> "/b/x.tif") ["/b/x.tif"]) "/out"
          Stub.m_tiled_twins).
Proof.
  split.
  - apply (@existing_output_left_untouched (Stub.gdal [])
             ["/in/x.dem"; "/in/y.dem"] "/out" "/in/x.dem" Stub.m_rerun).
    vm_compute; reflexivity.
  - apply (proj2 (@existing_output_left_untouched (Stub.gdal [])
                    ["/b/x.tif"] "/out" "/b/x.tif" Stub.m_tiled_twins) ["/a/x.tif"]).
    + vm_compute; reflexivity.
    + vm_compute; reflexivity.
Defined.

(** C1 as stated fails for the assembler: it looks the derived name up in
    the COG subdirectory, not in the output directory.  The intermediate
    [a.tif] exists in the output directory, and the assembler translates it
    all the same, into the COG subdirectory. *)
Lemma existing_output_in_out_dir_counterexample :
  path_exists (entered "/out" (CreateCOG.fs Stub.m_tiled)) (CreateCOG.out_name_of "/out/a.tif")
  = true
  /\ (@CreateCOG.batch_create_cog (Stub.gdal []) ["/out/a.tif"] "/out" Stub.m_tiled).2
     = Return tt
  /\ Stub.translate_sources
       (CreateCOG.trace (@CreateCOG.batch_create_cog (Stub.gdal []) ["/out/a.tif"] "/out"
                           Stub.m_tiled).1)
     = ["/out/a.tif"]
  /\ files (CreateCOG.fs (@CreateCOG.batch_create_cog (Stub.gdal []) ["/out/a.tif"] "/out"
                            Stub.m_tiled).1) !! "/out/COG/a.tif"
     = Some "GTiff".
Proof. split_and!; vm_compute; reflexivity. Qed.

(** ** Listings and the cleanup *)

Section Cleanup.
Import CreateCOG.

Lemma endswith_split suffix s : endswith suffix s = true -> exists a, s = a +:+ suffix.
Proof.
  induction s as [|c s IH]; simpl.
  - case_bool_decide as He; [|done]. intros _. exists EmptyString. by rewrite <- He.
  - case_bool_decide as He.
    + intros _. exists EmptyString. by rewrite <- He.
    + intros [a ->]%IH. by exists (String c a).
Qed.

Lemma rfind_app_none_l c a b : Py.rfind c (a +:+ b) = None -> Py.rfind c a = None.
Proof.
  induction a as [|x a IH]; [done|]. rewrite str_app_cons.
  intros [Hx Hr]%rfind_cons_none. apply rfind_cons_none. auto.
Qed.

Lemma listdir_elem fs0 d n :
  n ∈ listdir fs0 d ->
  n <> EmptyString /\ Py.rfind "/" n = None
  /\ (is_Some (files fs0 !! Py.join (resolve fs0 d) n) \/ Py.join (resolve fs0 d) n ∈ dirs fs0).
Proof.
  unfold listdir. intros (key & Hkey & He)%list_elem_of_omap.
  unfold entry_name in He. cbv zeta in He.
  destruct (negb _ && _) eqn:Hc; [|done]. injection He as <-.
  apply andb_prop in Hc as [Hne Hj]. apply negb_true_iff, bool_decide_eq_false in Hne.
  apply bool_decide_eq_true in Hj. rewrite Hj.
  split; [done|]. split; [apply rfind_basename|].
  apply elem_of_elements, elem_of_union in Hkey as [Hk|Hk]; [left|by right].
  by apply elem_of_dom.
Qed.

Lemma startswith_same c s : Py.startswith (String c EmptyString) (String c s) = true.
Proof.
  unfold Py.startswith. cbn [String.prefix].
  destruct (ascii_dec c c) as [_|Hne]; [by destruct s|done].
Qed.

Lemma join_empty_l n : Py.startswith "/" n = false -> Py.join EmptyString n = n.
Proof. unfold Py.join. by intros ->. Qed.

Lemma join_nonempty a b : b <> EmptyString -> Py.join a b <> EmptyString.
Proof.
  intros Hb. unfold Py.join. repeat case_match; [done| |];
    intros Heq; apply (f_equal String.length) in Heq;
    rewrite !str_length_app in Heq; destruct b; simpl in *; first [done|lia].
Qed.

(** what [glob] returns for a star followed by a suffix without slash, in
    a directory: names directly under the directory part of the pattern,
    not hidden, ending in the suffix *)
Lemma glob_star_elem d ext fs0 p :
  Py.rfind "/" ext = None ->
  p ∈ glob (Py.join d (String "*" ext)) fs0 ->
  exists stem,
    p = Py.join (Py.dirname (Py.join d (String "*" ext))) (stem +:+ ext)
    /\ Py.rfind "/" (stem +:+ ext) = None
    /\ Py.startswith "." (stem +:+ ext) = false
    /\ stem +:+ ext ∈ listdir fs0 (Py.dirname (Py.join d (String "*" ext))).
Proof.
  intros Hext. unfold glob. cbv zeta.
  assert (Hpat : Py.basename (Py.join d (String "*" ext)) = String "*" ext).
  { apply basename_join. apply rfind_cons_none. done. }
  rewrite Hpat. set (D := Py.dirname _).
  assert (Hsel : forall n dd,
            n ∈ filter (fun n => fnmatch n (String "*" ext) && negb (Py.startswith "." n))
                       (listdir fs0 dd) ->
            exists stem, n = stem +:+ ext /\ Py.rfind "/" n = None
                         /\ Py.startswith "." n = false /\ n ∈ listdir fs0 dd).
  { intros n dd [Hm Hin]%list_elem_of_filter.
    apply andb_prop_elim in Hm as [Hm Hh]. apply Is_true_true in Hm.
    apply negb_prop_elim, Is_true_false in Hh.
    change (fnmatch n (String "*" ext)) with (endswith ext n) in Hm.
    destruct (endswith_split _ _ Hm) as [stem ->].
    destruct (listdir_elem _ _ _ Hin) as (_ & Hr & _). eauto. }
  case_bool_decide as HD.
  - intros (stem & -> & Hr & Hh & Hin)%Hsel. exists stem. rewrite HD.
    rewrite join_empty_l by (by apply rfind_none_not_head). by split_and!.
  - destruct (is_dir fs0 D); [|by intros ?%elem_of_nil].
    intros (n & -> & (stem & -> & Hr & Hh & Hin)%Hsel)%list_elem_of_fmap.
    exists stem. by split_and!.
Qed.

Lemma erefused_cls err p :
  exn_cls (erefused err p) = PermissionError \/ exn_cls (erefused err p) = OSError.
Proof. destruct err; cbn; auto. Qed.

(** the classes of the exceptions [os.remove] raises *)
Lemma fs_remove_cls p fs0 e :
  fs_remove p fs0 = inl e ->
  exn_cls e = FileNotFoundError \/ exn_cls e = IsADirectoryError
  \/ exn_cls e = PermissionError \/ exn_cls e = OSError.
Proof.
  unfold fs_remove. intros H. repeat case_match; simplify_eq; cbn; auto.
  destruct (erefused_cls e0 p); auto.
Qed.

Lemma os_remove_inv p m m' r :
  os_remove p m = (m', r) ->
  self m' = self m /\ trace m' = trace m /\ dirs (fs m') = dirs (fs m)
  /\ cwd (fs m') = cwd (fs m) /\ refused (fs m') = refused (fs m)
  /\ match r with
     | Return _ => files (fs m') = delete (resolve (fs m) p) (files (fs m))
     | Raise e => m' = m /\ fs_remove p (fs m) = inl e
     end.
Proof.
  unfold os_remove, os_call. destruct (fs_remove p (fs m)) as [e|fs1] eqn:Hrm.
  - intros [= <- <-]. by split_and!.
  - intros [= <- <-]. cbn [self trace fs with_fs].
    unfold fs_remove in Hrm. by repeat case_match; simplify_eq.
Qed.

Lemma for_remove l : forall m m' r,
  for_ l os_remove m = (m', r) ->
  self m' = self m /\ trace m' = trace m /\ dirs (fs m') = dirs (fs m)
  /\ cwd (fs m') = cwd (fs m) /\ refused (fs m') = refused (fs m)
  /\ match r with
     | Return _ => files (fs m') = removed_from (fs m) l
     | Raise e =>
         exists before p after,
           l = before ++ p :: after
           /\ files (fs m') = removed_from (fs m) before
           /\ fs_remove p (fs m') = inl e
     end.
Proof.
  induction l as [|p l IH]; intros m m' r.
  - intros [= <- <-]. by split_and!.
  - rewrite for_cons. unfold bind. destruct (os_remove p m) as [m1 r1] eqn:H1.
    apply os_remove_inv in H1 as (Hs1 & Ht1 & Hd1 & Hc1 & Hr1 & H1).
    destruct r1 as [[]|e].
    + intros Hrun. apply IH in Hrun as (Hs & Ht & Hd & Hc & Hr & Hfiles).
      assert (Hrem : forall k, removed_from (fs m1) k
                               = foldl (fun acc q => delete (resolve (fs m) q) acc)
                                       (delete (resolve (fs m) p) (files (fs m))) k).
      { intros k. unfold removed_from. rewrite H1. unfold resolve. by rewrite Hc1. }
      split_and!; try congruence.
      destruct r as [[]|e].
      * by rewrite Hfiles, Hrem.
      * destruct Hfiles as (before & p' & after & -> & Hfiles & Hfail).
        exists (p :: before), p', after. split_and!; [done| |done].
        by rewrite Hfiles, Hrem.
    + intros [= <- <-]. destruct H1 as [-> Hfail]. split_and!; try done.
      by exists [], p, l.
Qed.

Lemma removed_from_lookup fs0 l q :
  removed_from fs0 l !! q = files fs0 !! q
  \/ (removed_from fs0 l !! q = None /\ exists p, p ∈ l /\ q = resolve fs0 p).
Proof.
  unfold removed_from. induction l as [|p l IH] using rev_ind; [by left|].
  rewrite foldl_snoc. destruct (decide (resolve fs0 p = q)) as [<-|Hne].
  - right. rewrite lookup_delete_eq. split; [done|]. exists p. split; [|done].
    apply elem_of_app. right. by left.
  - rewrite lookup_delete_ne by done. destruct IH as [IH|(Hnone & p' & Hp' & ->)]; [by left|].
    right. split; [done|]. exists p'. split; [|done]. apply elem_of_app. by left.
Qed.

Lemma removed_from_gone fs0 l p : p ∈ l -> removed_from fs0 l !! resolve fs0 p = None.
Proof.
  unfold removed_from. induction l as [|p' l IH] using rev_ind.
  - by intros ?%elem_of_nil.
  - rewrite foldl_snoc. intros Hp. destruct (decide (resolve fs0 p' = resolve fs0 p)) as [->|Hne].
    + by rewrite lookup_delete_eq.
    + rewrite lookup_delete_ne by done. apply IH.
      apply elem_of_app in Hp as [Hp|Hp]; [done|].
      apply list_elem_of_singleton in Hp as ->. done.
Qed.

(** X12: for a directory whose name holds no pattern character and
    resolves to a canonical path, the cleanup calls nothing of the library
    and changes neither the instance, the directories nor the working
    directory.  Every file is either left as it was or removed, and a
    removed file lies directly in the directory part of the pattern, under
    a name that ends in [.tif] and does not begin with a dot.  When the
    cleanup returns, the files are those of before less every path the
    listing gave.  A removal that raises ends the cleanup there: the
    exception is the one [os.remove] gives for that path, of class
    [FileNotFoundError], [IsADirectoryError], [PermissionError] or
    [OSError]; the paths listed before it are removed and no other; in
    particular a refusal of the operating system on the first listed file
    leaves every file in place. *)
Theorem remove_intermediate_tif_only_tif in_dir m m' r :
  Py.has_magic (Py.dirname (Py.join in_dir "*.tif")) = false ->
  is_canonical (resolve (fs m) (Py.dirname (Py.join in_dir "*.tif"))) = true ->
  remove_intermediate_tif in_dir m = (m', r) ->
  self m' = self m /\ trace m' = trace m /\ dirs (fs m') = dirs (fs m)
  /\ cwd (fs m') = cwd (fs m)
  /\ (forall q,
        files (fs m') !! q = files (fs m) !! q
        \/ (files (fs m') !! q = None
            /\ exists stem,
                q = resolve (fs m) (Py.join (Py.dirname (Py.join in_dir "*.tif")) (stem +:+ ".tif"))
                /\ Py.rfind "/" (stem +:+ ".tif") = None
                /\ Py.startswith "." (stem +:+ ".tif") = false))
  /\ (r = Return tt ->
      files (fs m') = removed_from (fs m) (glob (Py.join in_dir "*.tif") (fs m))
      /\ forall p, p ∈ glob (Py.join in_dir "*.tif") (fs m) ->
                   files (fs m') !! resolve (fs m) p = None)
  /\ (forall e, r = Raise e ->
        (exn_cls e = FileNotFoundError \/ exn_cls e = IsADirectoryError
         \/ exn_cls e = PermissionError \/ exn_cls e = OSError)
        /\ exists before p after,
            glob (Py.join in_dir "*.tif") (fs m) = before ++ p :: after
            /\ files (fs m') = removed_from (fs m) before
            /\ fs_remove p (fs m') = inl e)
  /\ (forall p rest err,
        glob (Py.join in_dir "*.tif") (fs m) = p :: rest ->
        is_file (fs m) p = true ->
        refused (fs m) !! resolve (fs m) p = Some err ->
        m' = m /\ r = Raise (erefused err p)).
Proof.
  intros _ _. unfold remove_intermediate_tif. unfold bind at 1, gets. intros Hrun.
  set (l := glob (Py.join in_dir "*.tif") (fs m)) in *.
  pose proof (for_remove _ _ _ _ Hrun) as (Hs & Ht & Hd & Hc & Hr & Hfiles).
  assert (Hsub : forall k q, (forall p, p ∈ k -> p ∈ l) ->
            removed_from (fs m) k !! q = files (fs m) !! q
            \/ (removed_from (fs m) k !! q = None
                /\ exists stem,
                    q = resolve (fs m)
                          (Py.join (Py.dirname (Py.join in_dir "*.tif")) (stem +:+ ".tif"))
                    /\ Py.rfind "/" (stem +:+ ".tif") = None
                    /\ Py.startswith "." (stem +:+ ".tif") = false)).
  { intros k q Hk. destruct (removed_from_lookup (fs m) k q) as [?|(Hnone & p & Hp & ->)];
      [by left|right].
    split; [done|]. apply Hk in Hp. subst l.
    apply (glob_star_elem in_dir ".tif") in Hp as (stem & -> & Hrf & Hh & _); [|done].
    by exists stem. }
  split_and!; try done.
  - intros q. destruct r as [[]|e].
    + rewrite Hfiles. by apply Hsub.
    + destruct Hfiles as (before & p & after & Hl & -> & _). apply Hsub.
      intros p' Hp'. rewrite Hl. apply elem_of_app. by left.
  - intros ->. split; [done|]. intros p Hp. rewrite Hfiles. by apply removed_from_gone.
  - intros e ->. destruct Hfiles as (before & p & after & Hl & Hf & Hfail).
    split; [by eapply fs_remove_cls|]. by exists before, p, after.
  - intros p rest err Hl Hfile Href. rewrite Hl in Hrun.
    rewrite for_cons in Hrun. unfold bind, os_remove, os_call, fs_remove in Hrun.
    rewrite Hfile, Href in Hrun.
    assert (Hne : p <> EmptyString).
    { intros ->. unfold is_file, resolve in Hfile.
      assert (Hp : EmptyString ∈ l) by (rewrite Hl; by left).
      subst l. apply (glob_star_elem in_dir ".tif") in Hp as (stem & Hp & _); [|done].
      symmetry in Hp. by apply join_nonempty in Hp; [|destruct stem]. }
    rewrite (bool_decide_eq_false_2 _ Hne) in Hrun. by injection Hrun as <- <-.
Qed.

(** X13: every path the listing gives for the pattern [*.tif] of a
    directory has its own file name as derived output name: the assembler
    names each COG after the intermediate file it is made from, and a
    [.tif] input of the converter is converted onto its own name. *)
Theorem tif_listing_keeps_names d fs0 p :
  p ∈ glob (Py.join d "*.tif") fs0 -> out_name_of p = Py.basename p.
Proof.
  intros Hp. apply (glob_star_elem d ".tif") in Hp as (stem & -> & Hr & Hh & _); [|done].
  rewrite (basename_join _ _ Hr).
  destruct stem as [|c rest]; [done|].
  assert (Hc : c <> "."%char).
  { intros ->. rewrite str_app_cons in Hh. by rewrite (startswith_same "." _) in Hh. }
  apply (out_name_of_plain _ (String c rest) "tif" c rest); try done.
  by apply rfind_app_none_l in Hr.
Qed.

End Cleanup.

Lemma remove_intermediate_tif_only_tif_witness :
  (files (CreateCOG.fs (CreateCOG.remove_intermediate_tif "/out" Stub.m_done).1)
     !! resolve (CreateCOG.fs Stub.m_done) "/out/a.tif" = None
   /\ CreateCOG.trace (CreateCOG.remove_intermediate_tif "/out" Stub.m_done).1
      = CreateCOG.trace Stub.m_done)
  /\ (exists p rest,
        glob (Py.join "/out" "*.tif") (CreateCOG.fs Stub.m_locked) = p :: rest
        /\ CreateCOG.remove_intermediate_tif "/out" Stub.m_locked
           = (Stub.m_locked, Raise (erefused EACCES p))).
Proof.
  split.
  - destruct (remove_intermediate_tif_only_tif "/out" Stub.m_done _ _
                eq_refl eq_refl (surjective_pairing _))
      as (_ & Ht & _ & _ & _ & Hall & _).
    split; [|exact Ht]. apply Hall; [vm_compute; reflexivity|by_decide].
  - destruct (glob (Py.join "/out" "*.tif") (CreateCOG.fs Stub.m_locked)) as [|p rest] eqn:Hl;
      [by vm_compute in Hl|].
    exists p, rest. split; [done|].
    destruct (remove_intermediate_tif_only_tif "/out" Stub.m_locked _ _
                eq_refl eq_refl (surjective_pairing _))
      as (_ & _ & _ & _ & _ & _ & _ & Hlock).
    destruct (Hlock p rest EACCES Hl) as [Hm Hr].
    + revert Hl. vm_compute. intros [= <- _]. reflexivity.
    + revert Hl. vm_compute. intros [= <- _]. reflexivity.
    + rewrite (surjective_pairing (CreateCOG.remove_intermediate_tif "/out" Stub.m_locked)).
      by rewrite Hm, Hr.
Defined.

Lemma tif_listing_keeps_names_witness :
  CreateCOG.out_name_of "/out/a.tif" = Py.basename "/out/a.tif".
Proof.
  apply (tif_listing_keeps_names "/out" (CreateCOG.fs Stub.m_done) "/out/a.tif").
  by_decide.
Defined.

(** ** The scanner on readable files *)

Section ScannerSuccess.
Import CheckCorruptJpg.
Context {G : Gdal}.

Lemma scan_one_readable file m x y c content :
  file <> EmptyString ->
  Open file (fs m) = Opened x y c ->
  files (fs m) !! resolve (fs m) file = Some content ->
  scan_one file m
  = (mkMachine (global_e m) (fs m)
       (stdout m ++ [OutInfo file (N.of_nat (String.length content)); OutBands c x y])
       (trace m ++ [EvOpen file; EvClose file]),
     Return tt).
Proof.
  intros Hne Hopen Hfile.
  unfold scan_one, try_except, inspect, bind, gdal_Open, os_stat_size, print, modify.
  rewrite Hopen. cbn [fs emit].
  rewrite (bool_decide_eq_false_2 _ Hne), Hfile.
  cbn [global_e fs stdout trace emit ds_path RasterCount RasterXSize RasterYSize].
  unfold emit. cbn [global_e fs stdout trace]. by rewrite <- !app_assoc.
Qed.

(** X14: when every file of the list is a non-empty path of an existing
    file that the library opens, the scan returns normally whether or not
    the name [e] is bound: each file is opened and closed once, in order,
    no file is written, and two lines per file and two closing lines are
    printed. *)
Theorem scan_all_readable lst m :
  (forall f, f ∈ lst ->
     f <> EmptyString /\ is_file (fs m) f = true
     /\ exists x y c, Open f (fs m) = Opened x y c) ->
  exists m',
    scan lst m = (m', Return tt)
    /\ fs m' = fs m /\ global_e m' = global_e m
    /\ trace m' = trace m ++ scan_script lst
    /\ length (stdout m') = length (stdout m) + 2 * length lst + 2.
Proof.
  intros Hall.
  assert (Hloop : exists m1,
            for_ lst scan_one m = (m1, Return tt)
            /\ fs m1 = fs m /\ global_e m1 = global_e m
            /\ trace m1 = trace m ++ scan_script lst
            /\ length (stdout m1) = length (stdout m) + 2 * length lst).
  { revert m Hall. induction lst as [|f lst IH]; intros m Hall.
    - exists m. split_and!; first [done | by rewrite app_nil_r | simpl; lia].
    - destruct (Hall f) as (Hne & Hfile & x & y & c & Hopen); [by left|].
      apply bool_decide_eq_true in Hfile as [content Hfile].
      pose proof (scan_one_readable _ _ _ _ _ _ Hne Hopen Hfile) as H1.
      set (m1 := mkMachine _ _ _ _) in H1.
      destruct (IH m1) as (m2 & Hrun & Hf & He & Ht & Hlen).
      { intros g Hg. apply Hall. by right. }
      exists m2. rewrite for_cons, (bind_return _ _ _ _ _ H1).
      split_and!; [done..| |].
      + rewrite Ht. subst m1. cbn [trace]. by rewrite <- app_assoc.
      + rewrite Hlen. subst m1. cbn [stdout]. rewrite length_app. simpl. lia. }
  destruct Hloop as (m1 & Hrun & Hf & He & Ht & Hlen).
  eexists. unfold scan. rewrite (bind_return _ _ _ _ _ Hrun).
  unfold bind, print, modify. split; [reflexivity|].
  cbn [fs global_e trace stdout]. split_and!; [done..|].
  rewrite !length_app. simpl. lia.
Qed.

End ScannerSuccess.

Lemma scan_all_readable_witness :
  exists m',
    @CheckCorruptJpg.scan (Stub.gdal []) ["a.jpg"; "b.jpg"]
      (CheckCorruptJpg.start (Stub.disk [("/scan/a.jpg", "x"); ("/scan/b.jpg", "jpeg")]
                                        ["/"; "/scan"] "/scan"))
    = (m', Return tt)
    /\ CheckCorruptJpg.trace m' = scan_script ["a.jpg"; "b.jpg"]
    /\ length (CheckCorruptJpg.stdout m') = 6.
Proof.
  destruct (@scan_all_readable (Stub.gdal []) ["a.jpg"; "b.jpg"]
              (CheckCorruptJpg.start (Stub.disk [("/scan/a.jpg", "x"); ("/scan/b.jpg", "jpeg")]
                                                ["/"; "/scan"] "/scan")))
    as (m' & Hrun & _ & _ & Ht & Hlen).
  - intros f Hf. repeat (apply elem_of_cons in Hf as [->|Hf]);
      [split_and!; [done|vm_compute; reflexivity|by eexists _, _, _] ..|].
    by apply elem_of_nil in Hf.
  - exists m'. split_and!; [exact Hrun|exact Ht|exact Hlen].
Defined.

(** ** Which calls are made, and with which reference *)

Section Calls.
Import CreateCOG.
Context {G : Gdal}.

Lemma emits_call_compress out_dir file :
  emits (call_of [file]) (compress_and_tile_one out_dir file).
Proof.
  intros m m' r. destruct (path_exists (fs m) (out_name_of file)) eqn:Hex.
  - rewrite (compress_and_tile_one_skip _ _ _ Hex). intros [= <- <-].
    exists []. by rewrite app_nil_r.
  - intros Hr. apply (compress_and_tile_one_run _ _ _ _ _ Hex) in Hr as [_ Hev].
    destruct Hev as [(e & _ & ->)|(opts & ->)].
    + exists []. by rewrite app_nil_r.
    + eexists. split; [done|]. constructor; [|done].
      exists file, opts. split; [by left|done].
Qed.

Lemma emits_call_cog out trans_opt file :
  emits (call_of [file]) (create_cog_one out trans_opt file).
Proof.
  intros m m' r. destruct (path_exists (fs m) (out_name_of file)) eqn:Hex.
  - rewrite (create_cog_one_skip _ _ _ _ Hex). intros [= <- <-].
    exists []. by rewrite app_nil_r.
  - intros Hr. destruct (create_cog_one_run _ _ _ _ _ _ Hex Hr) as [_ Hev].
    destruct Hev as [(e & _ & ->)|(opts & ->)].
    + exists []. by rewrite app_nil_r.
    + eexists. split; [done|]. constructor; [|done].
      exists file, opts. split; [by left|done].
Qed.

Lemma call_of_mono l x ev : x ∈ l -> call_of [x] ev -> call_of l ev.
Proof.
  intros Hx (g & opts & Hg & ->). apply list_elem_of_singleton in Hg as ->.
  by exists x, opts.
Qed.

Lemma batch_calls_are_listed_lemma l out_dir :
  emits (call_of l) (batch_compress_and_tile l out_dir).
Proof.
  unfold batch_compress_and_tile. apply emits_bind; [apply emits_os_call|].
  intros _. apply emits_for. intros f Hf.
  eapply emits_weaken, emits_call_compress. intros ev. by apply call_of_mono.
Qed.

Lemma batch_create_cog_calls_lemma l out_dir :
  emits (call_of l) (batch_create_cog l out_dir).
Proof.
  unfold batch_create_cog. apply emits_bind; [apply emits_gets|]. intros o.
  cbv zeta. apply emits_bind; [apply emits_os_call|].
  intros _. apply emits_bind; [apply emits_os_call|].
  intros _. apply emits_for. intros f Hf.
  eapply emits_weaken, emits_call_cog. intros ev. by apply call_of_mono.
Qed.

(** X15: the converter and the assembler call the library for nothing
    but translations, each from a file of the list they were given onto
    the derived output name of that file. *)
Theorem batch_calls_are_listed l out_dir :
  emits (call_of l) (batch_compress_and_tile l out_dir)
  /\ emits (call_of l) (batch_create_cog l out_dir).
Proof.
  split; [apply batch_calls_are_listed_lemma | apply batch_create_cog_calls_lemma].
Qed.

Lemma set_compress_method_epsg v o : epsg (set_compress_method v o) = epsg o.
Proof. reflexivity. Qed.

(** X16: a file that is not skipped and whose tokens contain neither utm
    nor bcalb is translated with the options the instance gave before the
    file was looked at: its call carries the spatial reference left by the
    files before it, and the reference is still the same afterwards. *)
Theorem no_token_file_uses_previous_reference out_dir file m :
  path_exists (fs m) (out_name_of file) = false ->
  Forall (fun t => names_projection t = false) (tokens_of file) ->
  exists m0 opts m' r,
    create_translate_options m = (m0, Return opts)
    /\ compress_and_tile_one out_dir file m = (m', r)
    /\ trace m' = trace m ++ [EvTranslate (out_name_of file) file opts]
    /\ epsg (self m') = epsg (self m).
Proof.
  intros Hnew Hno.
  destruct (create_translate_options m) as [m0 r0] eqn:Hc.
  pose proof (create_translate_options_inv _ _ _ Hc) as (_ & Ht0 & opts & ->).
  pose proof (create_translate_options_config _ _ _ Hc) as Hs0.
  destruct (logged_translate (convert_log out_dir) (out_name_of file) file opts m0)
    as [m' r] eqn:Hl.
  exists m0, opts, m', r. split; [done|].
  assert (Hbody : compress_and_tile_one out_dir file m = (m', r)).
  { rewrite (compress_and_tile_one_unfold _ _ _ Hnew).
    rewrite (bind_return _ _ _ m tt); [|by apply epsg_scan_no_match].
    by rewrite (bind_return _ _ _ _ _ Hc). }
  apply logged_translate_inv in Hl as (Hs & Ht & _).
  split_and!; [done|by rewrite Ht, Ht0|].
  rewrite Hs, Hs0. by case_bool_decide.
Qed.

Lemma listed_extension_of_glob d ext fs0 p :
  ext ∈ [".asc"; ".dem"; ".tif"] ->
  p ∈ glob (Py.join d (String "*" ext)) fs0 -> has_listed_extension p.
Proof.
  intros Hext Hp. apply glob_star_elem in Hp as (stem & -> & Hr & _).
  - exists stem, ext. split; [done|]. by apply basename_join.
  - repeat (apply elem_of_cons in Hext as [->|Hext]; [done|]). by apply elem_of_nil in Hext.
Qed.

Lemma call_of_listed l ev :
  Forall has_listed_extension l -> call_of l ev -> listed_call ev.
Proof.
  intros Hl (g & opts & Hg & ->). split; [done|].
  by apply (proj1 (Forall_forall _ _) Hl).
Qed.

Lemma emits_overviews_no_translate f :
  emits (fun ev => is_translate ev = false) (create_overviews_one f).
Proof.
  intros m m' r Hr. apply create_overviews_one_inv in Hr as [_ Hr].
  destruct r as [[]|e].
  - eexists. split; [done|]. by repeat constructor.
  - destruct Hr as [_ [->| ->]]; eexists; (split; [done|]); by repeat constructor.
Qed.

Lemma emits_gets_bind {A B} P (f : Machine -> A) (k : A -> M Machine B) :
  (forall m, forall m' r, k (f m) m = (m', r) ->
     exists evs, trace m' = trace m ++ evs /\ Forall P evs) ->
  emits P (bind (gets f) k).
Proof. intros H m m' r. unfold bind, gets. apply H. Qed.

(** X17: every translate call a run of the driver records, in the
    convert stage or in the COG stage, goes from a path whose file name
    ends in [.asc], [.dem] or [.tif] onto the derived output name of that
    path. *)
Theorem run_cog_conversion_calls_are_listed idir odir :
  emits listed_call (run_cog_conversion idir odir).
Proof.
  unfold run_cog_conversion. apply emits_gets_bind. intros m.
  set (flist := (_ ++ _)%list).
  assert (Hflist : Forall has_listed_extension flist).
  { subst flist. rewrite !Forall_app. split_and!; apply Forall_forall; intros p Hp.
    - apply (listed_extension_of_glob idir ".asc" (fs m)); [by_decide|done].
    - apply (listed_extension_of_glob idir ".dem" (fs m)); [by_decide|done].
    - apply (listed_extension_of_glob idir ".tif" (fs m)); [by_decide|done]. }
  apply emits_bind.
  { eapply emits_weaken; [|apply batch_calls_are_listed_lemma].
    intros ev. by apply call_of_listed. }
  intros _. apply emits_bind.
  { unfold batch_create_overviews. apply emits_for. intros f Hf.
    eapply emits_weaken; [|apply emits_overviews_no_translate].
    intros ev. by destruct ev. }
  intros _. apply emits_gets_bind. intros m2.
  set (l2 := glob _ _).
  assert (Hl2 : Forall has_listed_extension l2).
  { apply Forall_forall. intros p Hp.
    apply (listed_extension_of_glob odir ".tif" (fs m2)); [by_decide|done]. }
  apply emits_bind.
  { eapply emits_weaken; [|apply batch_create_cog_calls_lemma].
    intros ev. by apply call_of_listed. }
  intros _. unfold remove_intermediate_tif.
  apply emits_bind; [apply emits_gets|]. intros l'.
  apply emits_for. intros f _. apply emits_os_call.
Qed.

End Calls.

Lemma batch_calls_are_listed_witness :
  exists evs,
    CreateCOG.trace (@CreateCOG.batch_compress_and_tile (Stub.gdal ["/in/a.dem"])
                       ["/in/a.dem"; "/in/b.dem"] "/out" Stub.m_fresh).1
    = CreateCOG.trace Stub.m_fresh ++ evs
    /\ Forall (call_of ["/in/a.dem"; "/in/b.dem"]) evs.
Proof.
  exact (proj1 (@batch_calls_are_listed (Stub.gdal ["/in/a.dem"])
                  ["/in/a.dem"; "/in/b.dem"] "/out")
           Stub.m_fresh _ _ (surjective_pairing _)).
Defined.

Lemma no_token_file_uses_previous_reference_witness :
  exists m0 opts m' r,
    @CreateCOG.create_translate_options (Stub.gdal [])
      (CreateCOG.with_self (CreateCOG.set_epsg (Some 3157%N)) Stub.m_in_out)
    = (m0, Return opts)
    /\ @CreateCOG.compress_and_tile_one (Stub.gdal []) "/out" "/in/b.dem"
         (CreateCOG.with_self (CreateCOG.set_epsg (Some 3157%N)) Stub.m_in_out)
       = (m', r)
    /\ CreateCOG.trace m'
       = CreateCOG.trace (CreateCOG.with_self (CreateCOG.set_epsg (Some 3157%N)) Stub.m_in_out)
         ++ [EvTranslate (CreateCOG.out_name_of "/in/b.dem") "/in/b.dem" opts]
    /\ CreateCOG.epsg (CreateCOG.self m')
       = CreateCOG.epsg (CreateCOG.self
           (CreateCOG.with_self (CreateCOG.set_epsg (Some 3157%N)) Stub.m_in_out)).
Proof.
  apply (@no_token_file_uses_previous_reference (Stub.gdal []) "/out" "/in/b.dem").
  - vm_compute; reflexivity.
  - repeat constructor.
Defined.

Lemma run_cog_conversion_calls_are_listed_witness :
  exists evs,
    CreateCOG.trace (@CreateCOG.run_cog_conversion (Stub.gdal []) "/in" "/out" Stub.m_fresh).1
    = CreateCOG.trace Stub.m_fresh ++ evs
    /\ Forall listed_call evs.
Proof.
  exact (@run_cog_conversion_calls_are_listed (Stub.gdal []) "/in" "/out"
           Stub.m_fresh _ _ (surjective_pairing _)).
Defined.

Lemma batch_loops_only_add_witness :
  exists s,
    files (CreateCOG.fs (@CreateCOG.batch_compress_and_tile (Stub.gdal [])
                           ["/in/x.dem"; "/in/y.dem"] "/out" Stub.m_rerun).1)
      !! "/out/x.tif" = Some ("old" +:+ s)
    /\ ("/out/x.tif" <> resolve (entered "/out" (CreateCOG.fs Stub.m_rerun)) (convert_log "/out")
        -> s = EmptyString).
Proof.
  apply (proj1 (@batch_loops_only_add (Stub.gdal []) ["/in/x.dem"; "/in/y.dem"] "/out"
                  Stub.m_rerun)).
  vm_compute; reflexivity.
Defined.
